(** * EwUtil: interval gates, the expiry timer and the elapsed-time formatter

    A shallow embedding of [src/EwUtil.h] (classes [Periodical],
    [PeriodicalBase<T>], [Timer] and the [ew] namespace functions
    [numberOfSeconds] .. [fmtElapsed]) together with the properties the
    specification states about them.

    Conventions of the embedding.
    - [unsigned long] is the 32-bit unsigned type of the Arduino targets; a
      value is a [Z] in [0, 2^32) and every operation that can leave that
      interval is followed by an explicit reduction modulo [2^32].
    - [millis()] is the only input of the methods that use it.  A method that
      calls it takes the value it returns as the argument [now]; the reading
      at true time [t] (milliseconds since the counter started, unbounded)
      is [millis t = t mod 2^32].
    - Methods of a class are functions on a record of its data members.
      Callbacks ([std::function] members and CRTP [task()] methods) are
      functions on the store they can reach, which includes the object that
      calls them. *)

From Stdlib Require Import ZArith Bool List Lia String Ascii DecimalString.
Import ListNotations.
Local Open Scope Z_scope.

(** ** Machine arithmetic on [unsigned long] *)

Module ULong.

Definition bits : Z := 32.
Definition modulus : Z := 2 ^ bits.
Definition max : Z := modulus - 1.

Definition wrap (z : Z) : Z := z mod modulus.

Definition in_range (z : Z) : Prop := 0 <= z <= max.

(** [a - b], [a * b] on [unsigned long] operands *)
Definition sub (a b : Z) : Z := wrap (a - b).
Definition mul (a b : Z) : Z := wrap (a * b).

(** [/] and [%] never leave the range of their left operand *)
Definition div (a b : Z) : Z := a / b.
Definition rem (a b : Z) : Z := a mod b.

(** contextual conversion to [bool], as in [if (x)] *)
Definition to_bool (z : Z) : bool := negb (z =? 0).

End ULong.

(** ** The millisecond counter *)

Definition millis (t : Z) : Z := ULong.wrap t.

(** ** What a gated call does, as a trace

    A gate performs at most two observable things, in program order: it
    assigns its [m_prev] member and it calls its action. *)

Inductive Event : Type :=
| EvSetPrev (now : Z)
| EvCall.

Definition Cmd (S : Type) : Type := S -> list Event * S.

Definition skip {S : Type} : Cmd S := fun s => ([], s).

Definition seq {S : Type} (c1 c2 : Cmd S) : Cmd S :=
  fun s =>
    let (e1, s1) := c1 s in
    let (e2, s2) := c2 s1 in
    (e1 ++ e2, s2).

Definition call {S : Type} (f : S -> S) : Cmd S := fun s => ([EvCall], f s).

Notation "c1 ;; c2" := (seq c1 c2) (at level 61, right associativity).

Definition is_call (e : Event) : bool :=
  match e with
  | EvCall => true
  | EvSetPrev _ => false
  end.

(** number of times the action was called *)
Definition calls (tr : list Event) : nat := List.length (filter is_call tr).

(** ** [class Periodical] *)

Module Periodical.

(** the scalar members [m_ms], [m_prev]; [m_func] is kept apart because
    its type mentions the store the members live in *)
Record t : Type := mk { m_ms : Z; m_prev : Z }.

Definition set_m_prev (v : Z) (p : t) : t :=
  {| m_ms := m_ms p; m_prev := v |}.

Section WithHeap.

(** everything else the program's closures can reach *)
Variable Heap : Type.

Record Store : Type := mkStore { this : t; heap : Heap }.

(** [std::function<void(void)>]; [None] is the empty function, the one
    for which [if (m_func)] is false *)
Definition Func : Type := option (Store -> Store).

(** [Periodical(unsigned long ms, Func &&func)] *)
Definition ctor (ms : Z) (func : Func) : t * Func :=
  ({| m_ms := ms; m_prev := 0 |}, func).

Definition assign_m_prev (now : Z) : Cmd Store :=
  fun s => ([EvSetPrev now],
            {| this := set_m_prev now (this s); heap := heap s |}).

(** [void run()] *)
Definition run (m_func : Func) (now : Z) : Cmd Store :=
  fun s =>
    match m_func with
    | Some f =>
        if ULong.sub now (m_prev (this s)) >? m_ms (this s)
        then (assign_m_prev now ;; call f) s
        else skip s
    | None => skip s
    end.

(** [void operator()()] *)
Definition call_operator (m_func : Func) (now : Z) : Cmd Store :=
  run m_func now.

End WithHeap.

Arguments mkStore {Heap}.
Arguments this {Heap}.
Arguments heap {Heap}.
Arguments ctor {Heap}.
Arguments assign_m_prev {Heap}.
Arguments run {Heap}.
Arguments call_operator {Heap}.

End Periodical.

(** ** [template <class T> class PeriodicalBase] *)

Module PeriodicalBase.

Record t : Type := mk { m_period_ms : Z; m_prev : Z }.

Definition set_m_prev (v : Z) (p : t) : t :=
  {| m_period_ms := m_period_ms p; m_prev := v |}.

(** [PeriodicalBase(unsigned long period_ms)] *)
Definition ctor (period_ms : Z) : t :=
  {| m_period_ms := period_ms; m_prev := 0 |}.

(** [void setPeriodMs(unsigned long period_ms)] *)
Definition setPeriodMs (period_ms : Z) (p : t) : t :=
  {| m_period_ms := period_ms; m_prev := m_prev p |}.

(** [void setPeriodS(unsigned long period_s)] *)
Definition setPeriodS (period_s : Z) (p : t) : t :=
  setPeriodMs (ULong.mul period_s 1000) p.

(** [unsigned long getPeriodMs() const] *)
Definition getPeriodMs (p : t) : Z := m_period_ms p.

(** [unsigned long getPeriodS() const] *)
Definition getPeriodS (p : t) : Z := ULong.div (m_period_ms p) 1000.

(** An object of the derived class [T]: the base sub-object and the
    members [T] adds. *)
Record Derived (D : Type) : Type := mkDerived { base : t; fields : D }.

Arguments mkDerived {D}.
Arguments base {D}.
Arguments fields {D}.

(** The CRTP contract: the derived class supplies [void task()]. *)
Class Task (D : Type) : Type := task : Derived D -> Derived D.

Section WithTask.

Context {D : Type} `{Task D}.

Definition assign_m_prev (now : Z) : Cmd (Derived D) :=
  fun s => ([EvSetPrev now],
            {| base := set_m_prev now (base s); fields := fields s |}).

(** [void run()], the base class's version *)
Definition run (now : Z) : Cmd (Derived D) :=
  fun s =>
    if ULong.sub now (m_prev (base s)) >? m_period_ms (base s)
    then (assign_m_prev now ;; call task) s
    else skip s.

(** [void operator()()], for a [T] that does not override [run] *)
Definition call_operator (now : Z) : Cmd (Derived D) := run now.

End WithTask.

End PeriodicalBase.

(** ** [class Timer] *)

Module Timer.

Inductive Mode : Type := OneShot | Periodic.

Record t : Type := mk {
  m_mode : Mode;
  m_running : bool;
  m_timeoutMs : Z;
  m_timerLastMs : Z
}.

(** [Timer(const ms_t & timeout = 0, const Mode & mode = OneShot)] *)
Definition ctor (timeout : Z) (mode : Mode) : t :=
  {| m_mode := mode; m_running := false;
     m_timeoutMs := timeout; m_timerLastMs := 0 |}.

Definition ctor_default : t := ctor 0 OneShot.

Definition set_m_running (b : bool) (x : t) : t :=
  {| m_mode := m_mode x; m_running := b;
     m_timeoutMs := m_timeoutMs x; m_timerLastMs := m_timerLastMs x |}.

Definition set_m_timerLastMs (v : Z) (x : t) : t :=
  {| m_mode := m_mode x; m_running := m_running x;
     m_timeoutMs := m_timeoutMs x; m_timerLastMs := v |}.

Definition set_m_timeoutMs (v : Z) (x : t) : t :=
  {| m_mode := m_mode x; m_running := m_running x;
     m_timeoutMs := v; m_timerLastMs := m_timerLastMs x |}.

Definition set_m_mode (m : Mode) (x : t) : t :=
  {| m_mode := m; m_running := m_running x;
     m_timeoutMs := m_timeoutMs x; m_timerLastMs := m_timerLastMs x |}.

(** [bool expired()]: the returned flag and the timer afterwards *)
Definition expired (now : Z) (x : t) : bool * t :=
  if m_running x && ULong.to_bool (m_timeoutMs x) then
    if ULong.sub now (m_timerLastMs x) >? m_timeoutMs x then
      match m_mode x with
      | OneShot => (true, set_m_running false x)
      | Periodic => (true, set_m_timerLastMs now x)
      end
    else (false, x)
  else (false, x).

(** [void start(ms_t timeoutMs)] *)
Definition start_with (now : Z) (timeoutMs : Z) (x : t) : t :=
  set_m_running true (set_m_timeoutMs timeoutMs (set_m_timerLastMs now x)).

(** [void start(void)] *)
Definition start (now : Z) (x : t) : t := start_with now (m_timeoutMs x) x.

(** [void setTimeout(ms_t timeoutMs)] *)
Definition setTimeout (timeoutMs : Z) (x : t) : t :=
  set_m_timeoutMs timeoutMs x.

(** [ms_t getTimeout(void) const] *)
Definition getTimeout (x : t) : Z := m_timeoutMs x.

(** [void setMode(Mode mode)] *)
Definition setMode (mode : Mode) (x : t) : t := set_m_mode mode x.

(** [void stop(void)] *)
Definition stop (x : t) : t := set_m_running false x.

(** [bool running(void) const] *)
Definition running (x : t) : bool := m_running x.

(** *** Programs over a timer

    A caller's use of one timer is a sequence of calls of its public
    mutating methods; those that read the counter carry the reading. *)
Inductive Op : Type :=
| OpExpired (now : Z)
| OpStart (now : Z)
| OpStartWith (now : Z) (timeoutMs : Z)
| OpSetTimeout (timeoutMs : Z)
| OpSetMode (mode : Mode)
| OpStop.

(** one call: what [expired()] returned, if it was the call, and the
    timer afterwards *)
Definition step (o : Op) (x : t) : option bool * t :=
  match o with
  | OpExpired now => let (r, x') := expired now x in (Some r, x')
  | OpStart now => (None, start now x)
  | OpStartWith now ms => (None, start_with now ms x)
  | OpSetTimeout ms => (None, setTimeout ms x)
  | OpSetMode m => (None, setMode m x)
  | OpStop => (None, stop x)
  end.

(** a sequence of calls: the results of the [expired()] calls among
    them, in order, and the timer afterwards *)
Fixpoint exec (os : list Op) (x : t) : list bool * t :=
  match os with
  | [] => ([], x)
  | o :: os' =>
      let (r, x') := step o x in
      let (rs, x'') := exec os' x' in
      (match r with Some b => b :: rs | None => rs end, x'')
  end.

(** a sequence of [expired()] calls only *)
Fixpoint poll (nows : list Z) (x : t) : list bool * t :=
  match nows with
  | [] => ([], x)
  | now :: nows' =>
      let (r, x') := expired now x in
      let (rs, x'') := poll nows' x' in
      (r :: rs, x'')
  end.

Definition is_start (o : Op) : bool :=
  match o with
  | OpStart _ | OpStartWith _ _ => true
  | _ => false
  end.

End Timer.

(** ** [namespace ew] *)

Module ew.

Definition SECS_PER_MIN : Z := 60.
Definition SECS_PER_HOUR : Z := 3600.
Definition SECS_PER_DAY : Z := ULong.mul SECS_PER_HOUR 24.

Definition numberOfSeconds (seconds : Z) : Z :=
  ULong.rem seconds SECS_PER_MIN.

Definition numberOfMinutes (seconds : Z) : Z :=
  ULong.rem (ULong.div seconds SECS_PER_MIN) SECS_PER_MIN.

Definition numberOfHours (seconds : Z) : Z :=
  ULong.div (ULong.rem seconds SECS_PER_DAY) SECS_PER_HOUR.

Definition numberOfDays (seconds : Z) : Z :=
  ULong.div seconds SECS_PER_DAY.

(** the default templates of [fmtElapsed] *)
Definition default_fmts : string := "%lus".
Definition default_fmtm : string := "%lum %02lus".
Definition default_fmth : string := "%luh %02lum %02lus".
Definition default_fmtd : string := "%lud %02luh %02lum %02lus".

Section WithLibc.

(** The C library's [vsnprintf(buf, buflen, fmt, args)], as the text it
    leaves in [buf]; the variadic arguments are [unsigned long]s. *)
Variable vsnprintf : nat -> string -> list Z -> string.

(** [template <size_t BufSize> String& prtFmt(String& str, const char
    *fmt, ...)]: the new value of [str] *)
Definition prtFmt (BufSize : nat) (fmt : string) (args : list Z) : string :=
  vsnprintf BufSize fmt args.

(** [String& fmtElapsed(String &str, unsigned long seconds, bool all,
    const char *fmts, const char *fmtm, const char *fmth, const char
    *fmtd)]: the new value of [str] *)
Definition fmtElapsed (seconds : Z) (all : bool)
           (fmts fmtm fmth fmtd : string) : string :=
  let d := numberOfDays seconds in
  let h := numberOfHours seconds in
  let m := numberOfMinutes seconds in
  let s := numberOfSeconds seconds in
  if ULong.to_bool d || all then prtFmt 64 fmtd [d; h; m; s]
  else if ULong.to_bool h then prtFmt 64 fmth [h; m; s]
  else if ULong.to_bool m then prtFmt 64 fmtm [m; s]
  else prtFmt 64 fmts [s].

End WithLibc.

End ew.

(** ** The fragment of [vsnprintf] the templates of [fmtElapsed] use

    Literal characters, [%%] and the conversion [%[0][width]lu] of an
    [unsigned long]; the output is cut to [buflen - 1] characters, the room
    the terminating NUL leaves. *)

Module Printf.

Local Open Scope string_scope.

Inductive Scan : Type :=
| Literal
| Conversion (zero : bool) (width : nat).

Definition decimal (z : Z) : string :=
  DecimalString.NilZero.string_of_uint (N.to_uint (Z.to_N z)).

Fixpoint repeat_char (c : ascii) (n : nat) : string :=
  match n with
  | O => ""
  | S n' => String c (repeat_char c n')
  end.

Definition pad (zero : bool) (width : nat) (s : string) : string :=
  repeat_char (if zero then "0"%char else " "%char)
              (width - String.length s) ++ s.

Definition digit_of (c : ascii) : option nat :=
  let n := nat_of_ascii c in
  if (48 <=? n)%nat && (n <=? 57)%nat then Some (n - 48)%nat else None.

Fixpoint expand (st : Scan) (fmt : string) (args : list Z) : string :=
  match fmt with
  | EmptyString => ""
  | String c rest =>
      match st with
      | Literal =>
          if Ascii.eqb c "%" then expand (Conversion false 0) rest args
          else String c (expand Literal rest args)
      | Conversion zero width =>
          if Ascii.eqb c "%" then String c (expand Literal rest args)
          else if Ascii.eqb c "l" then expand st rest args
          else if Ascii.eqb c "u" then
            match args with
            | a :: args' =>
                pad zero width (decimal a) ++ expand Literal rest args'
            | [] => expand Literal rest []
            end
          else
            match digit_of c with
            | Some O =>
                if (width =? 0)%nat
                then expand (Conversion true width) rest args
                else expand (Conversion zero (10 * width)) rest args
            | Some d => expand (Conversion zero (10 * width + d)) rest args
            | None => String c (expand Literal rest args)
            end
      end
  end.

Definition vsnprintf (buflen : nat) (fmt : string) (args : list Z) : string :=
  String.substring 0 (buflen - 1) (expand Literal fmt args).

End Printf.

(** ** The formatter as the specification words it

    The decomposition into days, hours, minutes and seconds, the rule that
    selects one of four templates, and the components each template
    receives. *)

Module DurationFormatter.

Record Breakdown : Type := mkBreakdown {
  days : Z;
  hours : Z;
  minutes : Z;
  remainder_seconds : Z
}.

Definition decompose (seconds : Z) : Breakdown :=
  {| days := seconds / 86400;
     hours := (seconds mod 86400) / 3600;
     minutes := (seconds / 60) mod 60;
     remainder_seconds := seconds mod 60 |}.

Inductive Template : Type :=
| DayTemplate
| HourTemplate
| MinuteTemplate
| SecondsTemplate.

Definition select (all : bool) (b : Breakdown) : Template :=
  if all || (days b >? 0) then DayTemplate
  else if hours b >? 0 then HourTemplate
  else if minutes b >? 0 then MinuteTemplate
  else SecondsTemplate.

Definition components (tpl : Template) (b : Breakdown) : list Z :=
  match tpl with
  | DayTemplate => [days b; hours b; minutes b; remainder_seconds b]
  | HourTemplate => [hours b; minutes b; remainder_seconds b]
  | MinuteTemplate => [minutes b; remainder_seconds b]
  | SecondsTemplate => [remainder_seconds b]
  end.

Definition pick (tpl : Template) (fmts fmtm fmth fmtd : string) : string :=
  match tpl with
  | DayTemplate => fmtd
  | HourTemplate => fmth
  | MinuteTemplate => fmtm
  | SecondsTemplate => fmts
  end.

(** hours from what is left of [seconds] once the whole days are taken
    away, in [unsigned long] arithmetic *)
Definition residual_hours (seconds : Z) : Z :=
  ULong.div (ULong.sub seconds (ULong.mul 86400 (ULong.div seconds 86400)))
            3600.

End DurationFormatter.

(** ** Vocabulary of the properties *)

(** the action was called, once *)
Definition fires {S : Type} (r : list Event * S) : Prop :=
  calls (fst r) = 1%nat.

(** The first call of a [Periodical] that was constructed at true time
    [t0] and is first run at true time [t1], on a store in which nothing
    else has touched it.  The constructor does not call [millis()], so [t0]
    does not occur in the body. *)
Definition first_run {Heap : Type} (period_ms : Z)
           (f : Periodical.Store Heap -> Periodical.Store Heap)
           (h : Heap) (t0 t1 : Z) : list Event * Periodical.Store Heap :=
  let (p, m_func) := Periodical.ctor period_ms (Some f) in
  Periodical.run m_func (millis t1) (Periodical.mkStore p h).

(** the same for a class derived from [PeriodicalBase] *)
Definition first_run_base {D : Type} `{PeriodicalBase.Task D}
           (period_ms : Z) (d : D) (t0 t1 : Z)
  : list Event * PeriodicalBase.Derived D :=
  PeriodicalBase.run (millis t1)
    (PeriodicalBase.mkDerived (PeriodicalBase.ctor period_ms) d).

(** "the action fires on the first call if and only if the elapsed time
    since construction exceeds [period_ms]" *)
Definition first_call_since_construction (period_ms t0 t1 : Z) : Prop :=
  forall (Heap : Type) (f : Periodical.Store Heap -> Periodical.Store Heap)
         (h : Heap),
    fires (first_run period_ms f h t0 t1) <-> t1 - t0 > period_ms.

(** a timer that is armed in [Periodic] mode with timeout [T] *)
Definition armed_periodic (T : Z) (x : Timer.t) : Prop :=
  Timer.m_mode x = Timer.Periodic /\
  Timer.m_running x = true /\
  Timer.m_timeoutMs x = T.

(** [n] readings of the counter, each [d] milliseconds after the one
    before, the first [d] after [from] *)
Fixpoint readings_every (d from : Z) (n : nat) : list Z :=
  match n with
  | O => []
  | S n' =>
      let next := ULong.wrap (from + d) in
      next :: readings_every d next n'
  end.

Definition all_false (rs : list bool) : Prop := Forall (fun r => r = false) rs.

Definition no_start (os : list Timer.Op) : bool :=
  forallb (fun o => negb (Timer.is_start o)) os.

(** two actions for the concrete checks: each increments a counter *)
Definition count_up (s : Periodical.Store nat) : Periodical.Store nat :=
  Periodical.mkStore (Periodical.this s) (S (Periodical.heap s)).

#[export] Instance counting_task : PeriodicalBase.Task nat :=
  fun s => PeriodicalBase.mkDerived (PeriodicalBase.base s)
                                    (S (PeriodicalBase.fields s)).

(** ** The convenience macros of the earlier revision of the header

    [PS(NAME, MS) ... PE()] and [PdS(NAME, MS) ... PdE(NAME)], expanded. *)

Module Macros.

Section WithHeap.

Variable Heap : Type.

(** [PS] declares [static unsigned long NAME_prev = 0;], which the block
    between [PS] and [PE] has in scope like the rest of the program's
    memory. *)
Record PSStore : Type := mkPSStore { NAME_prev : Z; ps_heap : Heap }.

Definition assign_NAME_prev (v : Z) : Cmd PSStore :=
  fun s => ([EvSetPrev v], {| NAME_prev := v; ps_heap := ps_heap s |}).

(** [PS(NAME, MS) body PE()]:
    [if (millis() - NAME_prev > MS) { NAME_prev = millis(); body }].
    [millis()] is called twice when the test succeeds; [now1] is the reading
    of the test and [now2] the reading that is stored. *)
Definition PS_PE (MS : Z) (body : PSStore -> PSStore) (now1 now2 : Z)
  : Cmd PSStore :=
  fun s =>
    if ULong.sub now1 (NAME_prev s) >? MS
    then (assign_NAME_prev now2 ;; call body) s
    else skip s.

(** a captureless lambda [[]() body] reaches the program's memory but not
    the automatic object it is handed to *)
Definition captureless (body : Heap -> Heap)
  : Periodical.Store Heap -> Periodical.Store Heap :=
  fun s => Periodical.mkStore (Periodical.this s) (body (Periodical.heap s)).

(** [PdS(NAME, MS) body PdE(NAME)]:
    [Periodical NAME(3000, []() body ); NAME();], an automatic object that
    is constructed each time the statement is executed.  What is left when
    the object goes out of scope is the trace and the program's memory. *)
Definition PdS_PdE (MS : Z) (body : Heap -> Heap) (now : Z)
  : Heap -> list Event * Heap :=
  fun h =>
    let (NAME, m_func) := Periodical.ctor 3000 (Some (captureless body)) in
    let (tr, s') := Periodical.call_operator m_func now
                      (Periodical.mkStore NAME h) in
    (tr, Periodical.heap s').

End WithHeap.

Arguments mkPSStore {Heap}.
Arguments NAME_prev {Heap}.
Arguments ps_heap {Heap}.
Arguments assign_NAME_prev {Heap}.
Arguments PS_PE {Heap}.
Arguments captureless {Heap}.
Arguments PdS_PdE {Heap}.

End Macros.

(** ** A main loop that runs one gate, or polls one timer, again and again *)

(** [Periodical::run] once per counter reading, in order *)
Fixpoint run_each {Heap : Type} (m_func : Periodical.Func Heap)
         (nows : list Z) : Cmd (Periodical.Store Heap) :=
  match nows with
  | [] => skip
  | now :: nows' => Periodical.run m_func now ;; run_each m_func nows'
  end.

(** [PeriodicalBase::run] once per counter reading, in order *)
Fixpoint run_base_each {D : Type} `{PeriodicalBase.Task D}
         (nows : list Z) : Cmd (PeriodicalBase.Derived D) :=
  match nows with
  | [] => skip
  | now :: nows' => PeriodicalBase.run now ;; run_base_each nows'
  end.

(** an action that leaves the members of the gate that calls it alone *)
Definition preserves_this {Heap : Type}
           (f : Periodical.Store Heap -> Periodical.Store Heap) : Prop :=
  forall s, Periodical.this (f s) = Periodical.this s.

(** a [task()] that leaves the base sub-object alone *)
Definition preserves_base {D : Type} `{PeriodicalBase.Task D} : Prop :=
  forall b, PeriodicalBase.base (PeriodicalBase.task b) = PeriodicalBase.base b.

(** true times that do not go backwards, none before [t] *)
Fixpoint nondecreasing_from (t : Z) (ts : list Z) : Prop :=
  match ts with
  | [] => True
  | u :: ts' => t <= u /\ nondecreasing_from u ts'
  end.

(** how many of the [expired()] calls returned true *)
Definition count_true (rs : list bool) : Z :=
  Z.of_nat (List.length (filter (fun r => r) rs)).

(** the flags [bs] with every [true] after the first turned to [false] *)
Fixpoint only_first (bs : list bool) : list bool :=
  match bs with
  | [] => []
  | true :: bs' => true :: repeat false (List.length bs')
  | false :: bs' => false :: only_first bs'
  end.

Definition sets_mode (o : Timer.Op) : bool :=
  match o with
  | Timer.OpSetMode _ => true
  | _ => false
  end.

Definition sets_timeout (o : Timer.Op) : bool :=
  match o with
  | Timer.OpSetTimeout _ | Timer.OpStartWith _ _ => true
  | _ => false
  end.

Definition none_of (p : Timer.Op -> bool) (os : list Timer.Op) : bool :=
  forallb (fun o => negb (p o)) os.

(** ** Sanity checks of the embedding on concrete inputs *)

Example fmtElapsed_59 :
  ew.fmtElapsed Printf.vsnprintf 59 false ew.default_fmts ew.default_fmtm
                ew.default_fmth ew.default_fmtd = "59s"%string.
Proof. vm_compute. reflexivity. Qed.

Example fmtElapsed_125 :
  ew.fmtElapsed Printf.vsnprintf 125 false ew.default_fmts ew.default_fmtm
                ew.default_fmth ew.default_fmtd = "2m 05s"%string.
Proof. vm_compute. reflexivity. Qed.

Example fmtElapsed_3725 :
  ew.fmtElapsed Printf.vsnprintf 3725 false ew.default_fmts ew.default_fmtm
                ew.default_fmth ew.default_fmtd = "1h 02m 05s"%string.
Proof. vm_compute. reflexivity. Qed.

Example fmtElapsed_90000 :
  ew.fmtElapsed Printf.vsnprintf 90000 false ew.default_fmts ew.default_fmtm
                ew.default_fmth ew.default_fmtd = "1d 01h 00m 00s"%string.
Proof. vm_compute. reflexivity. Qed.

Example fmtElapsed_30_all :
  ew.fmtElapsed Printf.vsnprintf 30 true ew.default_fmts ew.default_fmtm
                ew.default_fmth ew.default_fmtd = "0d 00h 00m 30s"%string.
Proof. vm_compute. reflexivity. Qed.

Example periodical_first_run_fires :
  first_run 1000 count_up 0%nat 0 1001
  = ([EvSetPrev 1001; EvCall],
     Periodical.mkStore (Periodical.mk 1000 1001) 1%nat).
Proof. reflexivity. Qed.

Example periodical_first_run_waits :
  first_run 1000 count_up 0%nat 0 1000
  = ([], Periodical.mkStore (Periodical.mk 1000 0) 0%nat).
Proof. reflexivity. Qed.

Example timer_oneshot_run :
  Timer.exec [Timer.OpStartWith 10 100; Timer.OpExpired 110;
              Timer.OpExpired 111; Timer.OpExpired 500; Timer.OpStart 600;
              Timer.OpExpired 700; Timer.OpExpired 701]
             Timer.ctor_default
  = ([false; true; false; false; true],
     Timer.mk Timer.OneShot false 100 600).
Proof. reflexivity. Qed.

Example timer_periodic_run :
  Timer.poll [50; 101; 150; 201; 202; 303]
             (Timer.start 0 (Timer.ctor 100 Timer.Periodic))
  = ([false; true; false; false; true; true],
     Timer.mk Timer.Periodic true 100 303).
Proof. reflexivity. Qed.

(** * Properties *)

(** ** Facts about [unsigned long] arithmetic *)

Lemma modulus_value : ULong.modulus = 4294967296.
Proof. reflexivity. Qed.

Lemma modulus_pos : 0 < ULong.modulus.
Proof. rewrite modulus_value. lia. Qed.

Lemma wrap_in_range (z : Z) : ULong.in_range (ULong.wrap z).
Proof.
  unfold ULong.in_range, ULong.wrap, ULong.max.
  pose proof (Z.mod_pos_bound z ULong.modulus modulus_pos). lia.
Qed.

Lemma wrap_small (z : Z) : ULong.in_range z -> ULong.wrap z = z.
Proof.
  unfold ULong.in_range, ULong.wrap, ULong.max. intros Hz.
  apply Z.mod_small. lia.
Qed.

Lemma millis_in_range (t : Z) : ULong.in_range (millis t).
Proof. apply wrap_in_range. Qed.

(** The difference of two readings is the true difference reduced modulo
    the width, whatever happened to the counter in between. *)
Lemma sub_millis (t_last t_now : Z) :
  ULong.sub (millis t_now) (millis t_last) = ULong.wrap (t_now - t_last).
Proof.
  unfold ULong.sub, millis, ULong.wrap.
  rewrite <- Zminus_mod. reflexivity.
Qed.

Lemma sub_millis_exact (t_last t_now : Z) :
  0 <= t_now - t_last <= ULong.max ->
  ULong.sub (millis t_now) (millis t_last) = t_now - t_last.
Proof.
  intros Hd. rewrite sub_millis. apply wrap_small. exact Hd.
Qed.

Lemma sub_zero (now : Z) : ULong.in_range now -> ULong.sub now 0 = now.
Proof.
  intros Hn. unfold ULong.sub. rewrite Z.sub_0_r. apply wrap_small, Hn.
Qed.

Lemma to_bool_true (z : Z) : ULong.to_bool z = true <-> z <> 0.
Proof.
  unfold ULong.to_bool. destruct (Z.eqb_spec z 0); simpl; split;
    intros; congruence.
Qed.

Lemma to_bool_nonneg (z : Z) : 0 <= z -> ULong.to_bool z = (z >? 0).
Proof.
  intros Hz. unfold ULong.to_bool.
  destruct (Z.eqb_spec z 0); destruct (Z.gtb_spec z 0); simpl; lia.
Qed.

(** ** The gates *)

Ltac gate_unfold :=
  unfold fires, calls, Periodical.run, PeriodicalBase.run, seq,
    Periodical.assign_m_prev, PeriodicalBase.assign_m_prev, call, skip.

Section Gates.

Context {Heap D : Type} `{PeriodicalBase.Task D}.

Implicit Types (s : Periodical.Store Heap) (b : PeriodicalBase.Derived D).

(** what [Periodical::run] does, by cases on the gate *)
Lemma run_eq (f : Periodical.Store Heap -> Periodical.Store Heap) now s :
  Periodical.run (Some f) now s =
  if ULong.sub now (Periodical.m_prev (Periodical.this s))
     >? Periodical.m_ms (Periodical.this s)
  then ([EvSetPrev now; EvCall],
        f (Periodical.mkStore
             (Periodical.set_m_prev now (Periodical.this s))
             (Periodical.heap s)))
  else ([], s).
Proof. gate_unfold. destruct (_ >? _); reflexivity. Qed.

(** what [PeriodicalBase::run] does, by cases on the gate *)
Lemma run_base_eq now b :
  PeriodicalBase.run now b =
  if ULong.sub now (PeriodicalBase.m_prev (PeriodicalBase.base b))
     >? PeriodicalBase.m_period_ms (PeriodicalBase.base b)
  then ([EvSetPrev now; EvCall],
        PeriodicalBase.task
          (PeriodicalBase.mkDerived
             (PeriodicalBase.set_m_prev now (PeriodicalBase.base b))
             (PeriodicalBase.fields b)))
  else ([], b).
Proof. gate_unfold. destruct (_ >? _); reflexivity. Qed.

Lemma run_fires_iff (f : Periodical.Store Heap -> Periodical.Store Heap)
      now s :
  fires (Periodical.run (Some f) now s) <->
  ULong.sub now (Periodical.m_prev (Periodical.this s))
  > Periodical.m_ms (Periodical.this s).
Proof.
  rewrite run_eq. unfold fires, calls.
  destruct (Z.gtb_spec (ULong.sub now (Periodical.m_prev (Periodical.this s)))
                       (Periodical.m_ms (Periodical.this s)));
    simpl; split; intros; try lia; try discriminate.
Qed.

Lemma run_base_fires_iff now b :
  fires (PeriodicalBase.run now b) <->
  ULong.sub now (PeriodicalBase.m_prev (PeriodicalBase.base b))
  > PeriodicalBase.m_period_ms (PeriodicalBase.base b).
Proof.
  rewrite run_base_eq. unfold fires, calls.
  destruct (Z.gtb_spec
              (ULong.sub now (PeriodicalBase.m_prev (PeriodicalBase.base b)))
              (PeriodicalBase.m_period_ms (PeriodicalBase.base b)));
    simpl; split; intros; try lia; try discriminate.
Qed.

Lemma run_calls_le_1 (m_func : Periodical.Func Heap) now s :
  (calls (fst (Periodical.run m_func now s)) <= 1)%nat.
Proof.
  destruct m_func as [f|]; [rewrite run_eq | gate_unfold];
    try destruct (_ >? _); simpl; auto.
Qed.

Lemma run_base_calls_le_1 now b :
  (calls (fst (PeriodicalBase.run now b)) <= 1)%nat.
Proof. rewrite run_base_eq. destruct (_ >? _); simpl; auto. Qed.

End Gates.

(** C1.  One call of [run()] of a gate that has an action, for the dynamic
    [Periodical] and for the static [PeriodicalBase] alike: the action is
    called if and only if [now - m_prev], subtracted modulo [2^32], is
    greater than the period; it is never called more than once; when it is
    called, [m_prev] has been assigned [now] first (the trace is the
    assignment followed by the call, and the action runs on the store that
    already holds [m_prev = now]); when it is not called, nothing is
    assigned and the store, [m_prev] included, is as it was. *)
Theorem gate_run_fires_once :
  forall (Heap D : Type) (T : PeriodicalBase.Task D)
         (f : Periodical.Store Heap -> Periodical.Store Heap) (now : Z)
         (s : Periodical.Store Heap) (b : PeriodicalBase.Derived D),
    (fires (Periodical.run (Some f) now s) <->
     ULong.sub now (Periodical.m_prev (Periodical.this s))
     > Periodical.m_ms (Periodical.this s))
    /\ (calls (fst (Periodical.run (Some f) now s)) <= 1)%nat
    /\ Periodical.run (Some f) now s =
       (if ULong.sub now (Periodical.m_prev (Periodical.this s))
           >? Periodical.m_ms (Periodical.this s)
        then ([EvSetPrev now; EvCall],
              f (Periodical.mkStore
                   (Periodical.mk (Periodical.m_ms (Periodical.this s)) now)
                   (Periodical.heap s)))
        else ([], s))
    /\ (fires (PeriodicalBase.run now b) <->
        ULong.sub now (PeriodicalBase.m_prev (PeriodicalBase.base b))
        > PeriodicalBase.m_period_ms (PeriodicalBase.base b))
    /\ (calls (fst (PeriodicalBase.run now b)) <= 1)%nat
    /\ PeriodicalBase.run now b =
       (if ULong.sub now (PeriodicalBase.m_prev (PeriodicalBase.base b))
           >? PeriodicalBase.m_period_ms (PeriodicalBase.base b)
        then ([EvSetPrev now; EvCall],
              PeriodicalBase.task
                (PeriodicalBase.mkDerived
                   (PeriodicalBase.mk
                      (PeriodicalBase.m_period_ms (PeriodicalBase.base b)) now)
                   (PeriodicalBase.fields b)))
        else ([], b)).
Proof.
  intros Heap D T f now s b.
  split; [apply run_fires_iff|].
  split; [apply run_calls_le_1|].
  split; [apply run_eq|].
  split; [apply run_base_fires_iff|].
  split; [apply run_base_calls_le_1|].
  apply run_base_eq.
Qed.

(** C9.  [run()] of a [Periodical] whose [m_func] is empty returns with
    nothing done: no assignment, no call, and the store, [m_prev] included,
    is the one it was given, whatever the counter reads. *)
Theorem run_without_action_is_noop :
  forall (Heap : Type) (now : Z) (s : Periodical.Store Heap),
    Periodical.run None now s = ([], s)
    /\ Periodical.call_operator None now s = ([], s).
Proof. intros Heap now s. split; reflexivity. Qed.

(** C6, as stated, fails: a [Periodical] with period 1000 constructed when
    the counter reads 5000 and first run at 5001 calls its action, one
    millisecond after construction. *)
Lemma first_call_since_construction_fails :
  ~ first_call_since_construction 1000 5000 5001.
Proof.
  intros Hclaim.
  destruct (Hclaim nat count_up 0%nat) as [Hfire _].
  assert (Habs : 5001 - 5000 > 1000) by (apply Hfire; reflexivity).
  lia.
Qed.

(** C6, amended.  The constructors set [m_prev] to 0 and do not read the
    counter, so for every period the first call of a gate (of either
    variant) calls the action if and only if the counter reading at that
    call, that is the time since the counter was at 0 taken modulo [2^32],
    exceeds the period; the time of construction plays no part. *)
Theorem first_call_fires_iff_reading_exceeds_period :
  forall (Heap D : Type) (T : PeriodicalBase.Task D)
         (f : Periodical.Store Heap -> Periodical.Store Heap)
         (h : Heap) (d : D) (period_ms t0 t1 : Z),
    (fires (first_run period_ms f h t0 t1) <-> millis t1 > period_ms)
    /\ (fires (first_run_base period_ms d t0 t1) <-> millis t1 > period_ms).
Proof.
  intros Heap D T f h d period_ms t0 t1.
  unfold first_run, first_run_base, Periodical.ctor, PeriodicalBase.ctor.
  split.
  - rewrite run_fires_iff. simpl.
    rewrite (sub_zero _ (millis_in_range t1)). reflexivity.
  - rewrite run_base_fires_iff. simpl.
    rewrite (sub_zero _ (millis_in_range t1)). reflexivity.
Qed.

(** ** The timer *)

Lemma expired_eq (now : Z) (x : Timer.t) :
  Timer.expired now x =
  if Timer.m_running x && ULong.to_bool (Timer.m_timeoutMs x)
     && (ULong.sub now (Timer.m_timerLastMs x) >? Timer.m_timeoutMs x)
  then (true, match Timer.m_mode x with
              | Timer.OneShot => Timer.set_m_running false x
              | Timer.Periodic => Timer.set_m_timerLastMs now x
              end)
  else (false, x).
Proof.
  unfold Timer.expired.
  destruct (Timer.m_running x && ULong.to_bool (Timer.m_timeoutMs x)); simpl;
    [|reflexivity].
  destruct (_ >? _); [|reflexivity].
  destruct (Timer.m_mode x); reflexivity.
Qed.

Lemma expired_result (now : Z) (x : Timer.t) :
  fst (Timer.expired now x) =
  Timer.m_running x && ULong.to_bool (Timer.m_timeoutMs x)
  && (ULong.sub now (Timer.m_timerLastMs x) >? Timer.m_timeoutMs x).
Proof. rewrite expired_eq. destruct (_ && _); reflexivity. Qed.

(** C2.  Let the gate's (or the timer's) reference timestamp be the reading
    at true time [t_last] and let the call read the counter at true time
    [t_now], where the true elapsed time [t_now - t_last] is not negative
    and fits in the counter's width.  Then the difference the code computes,
    [now - last] modulo [2^32], is the true elapsed time, also when the
    counter has wrapped between the two readings ([now < last]); so both
    gates call their action exactly when the true elapsed time exceeds the
    period, and [Timer::expired], on a running timer with a nonzero timeout,
    returns true exactly then. *)
Theorem elapsed_is_modular_difference :
  forall (Heap D : Type) (T : PeriodicalBase.Task D)
         (f : Periodical.Store Heap -> Periodical.Store Heap)
         (h : Heap) (d : D) (x : Timer.t) (period t_last t_now : Z),
    0 <= t_now - t_last <= ULong.max ->
    ULong.sub (millis t_now) (millis t_last)
    = (t_now - t_last) mod ULong.modulus
    /\ ULong.sub (millis t_now) (millis t_last) = t_now - t_last
    /\ (fires (Periodical.run (Some f) (millis t_now)
                 (Periodical.mkStore (Periodical.mk period (millis t_last)) h))
        <-> t_now - t_last > period)
    /\ (fires (PeriodicalBase.run (millis t_now)
                 (PeriodicalBase.mkDerived
                    (PeriodicalBase.mk period (millis t_last)) d))
        <-> t_now - t_last > period)
    /\ fst (Timer.expired (millis t_now)
              (Timer.set_m_timerLastMs (millis t_last) x))
       = Timer.m_running x && ULong.to_bool (Timer.m_timeoutMs x)
         && (t_now - t_last >? Timer.m_timeoutMs x).
Proof.
  intros Heap D T f h d x period t_last t_now Hd.
  pose proof (sub_millis_exact t_last t_now Hd) as Hsub.
  split; [apply sub_millis|].
  split; [exact Hsub|].
  split; [rewrite run_fires_iff; simpl; rewrite Hsub; reflexivity|].
  split; [rewrite run_base_fires_iff; simpl; rewrite Hsub; reflexivity|].
  rewrite expired_result. simpl. rewrite Hsub. reflexivity.
Qed.

(** The counter wraps between the two readings: the reference reading is
    [2^32 - 10], the call reads 5, fifteen milliseconds later. *)
Lemma elapsed_is_modular_difference_witness :
  millis 4294967301 = 5 /\ millis 4294967286 = 4294967286
  /\ (fires (Periodical.run (Some count_up) 5
               (Periodical.mkStore (Periodical.mk 14 4294967286) 0%nat))
      <-> 4294967301 - 4294967286 > 14)
  /\ fst (Timer.expired 5 (Timer.mk Timer.OneShot true 15 4294967286)) = false.
Proof.
  split; [reflexivity|]. split; [reflexivity|].
  assert (Hd : 0 <= 4294967301 - 4294967286 <= ULong.max)
    by (vm_compute; split; discriminate).
  split.
  - exact (proj1 (proj2 (proj2
      (elapsed_is_modular_difference nat nat counting_task count_up 0%nat 0%nat
         (Timer.mk Timer.OneShot true 15 0) 14 4294967286 4294967301 Hd)))).
  - exact (proj2 (proj2 (proj2 (proj2
      (elapsed_is_modular_difference nat nat counting_task count_up 0%nat 0%nat
         (Timer.mk Timer.OneShot true 15 0) 14 4294967286 4294967301 Hd))))).
Defined.

Lemma expired_disarmed (now : Z) (x : Timer.t) :
  Timer.m_running x = false \/ Timer.m_timeoutMs x = 0 ->
  Timer.expired now x = (false, x).
Proof.
  intros [Hr | Ht]; unfold Timer.expired.
  - rewrite Hr. reflexivity.
  - rewrite Ht. rewrite andb_false_r. reflexivity.
Qed.

Lemma poll_disarmed (nows : list Z) (x : Timer.t) :
  Timer.m_running x = false \/ Timer.m_timeoutMs x = 0 ->
  Timer.poll nows x = (repeat false (List.length nows), x).
Proof.
  intros Hx. induction nows as [|now nows IH]; simpl.
  - reflexivity.
  - rewrite (expired_disarmed now x Hx), IH. reflexivity.
Qed.

(** a call that is not a [start] leaves a stopped timer stopped, and if it
    is [expired()] it returns false *)
Lemma step_stopped (o : Timer.Op) (x : Timer.t) :
  Timer.is_start o = false ->
  Timer.m_running x = false ->
  Timer.m_running (snd (Timer.step o x)) = false
  /\ (fst (Timer.step o x) = None \/ fst (Timer.step o x) = Some false).
Proof.
  intros Ho Hx. destruct o; simpl in *; try discriminate; auto.
  rewrite (expired_disarmed now x (or_introl Hx)). simpl. auto.
Qed.

Lemma exec_stopped (os : list Timer.Op) :
  forall x : Timer.t,
    no_start os = true ->
    Timer.m_running x = false ->
    all_false (fst (Timer.exec os x))
    /\ Timer.m_running (snd (Timer.exec os x)) = false.
Proof.
  unfold all_false, no_start.
  induction os as [|o os IH]; intros x Hos Hx; simpl.
  - split; [constructor | exact Hx].
  - simpl in Hos. apply andb_true_iff in Hos as [Ho Hos].
    apply negb_true_iff in Ho.
    destruct (step_stopped o x Ho Hx) as [Hrun Hres].
    destruct (Timer.step o x) as [r x'] eqn:Hstep. simpl in Hrun, Hres.
    destruct (IH x' Hos Hrun) as [Hall Hrun'].
    destruct (Timer.exec os x') as [rs x''] eqn:Hexec. simpl in *.
    split; [|exact Hrun'].
    destruct Hres as [-> | ->]; [exact Hall | constructor; auto].
Qed.

(** C3.  A running [OneShot] timer with a nonzero timeout whose
    [expired()] sees [now - m_timerLastMs > m_timeoutMs] returns true and
    clears [m_running], changing nothing else.  From then on every
    [expired()] returns false and leaves the timer as it is, for any
    readings of the counter and also when [setTimeout], [setMode] or [stop]
    are called in between: only a [start] makes it run again. *)
Theorem oneshot_expires_once :
  forall (x : Timer.t) (now : Z),
    Timer.m_mode x = Timer.OneShot ->
    Timer.m_running x = true ->
    Timer.m_timeoutMs x <> 0 ->
    ULong.sub now (Timer.m_timerLastMs x) > Timer.m_timeoutMs x ->
    let x1 := Timer.mk Timer.OneShot false (Timer.m_timeoutMs x)
                       (Timer.m_timerLastMs x) in
    Timer.expired now x = (true, x1)
    /\ Timer.running x1 = false
    /\ (forall nows : list Z,
           Timer.poll nows x1 = (repeat false (List.length nows), x1))
    /\ (forall os : list Timer.Op,
           no_start os = true ->
           all_false (fst (Timer.exec os x1))
           /\ Timer.running (snd (Timer.exec os x1)) = false)
    /\ (forall now' : Z, Timer.running (Timer.start now' x1) = true)
    /\ (forall now' ms : Z,
           Timer.running (Timer.start_with now' ms x1) = true).
Proof.
  intros x now Hmode Hrun Hto Hgt x1.
  split.
  - rewrite expired_eq, Hrun, Hmode.
    apply to_bool_true in Hto. rewrite Hto.
    apply Z.gtb_gt in Hgt. rewrite Hgt. simpl.
    unfold Timer.set_m_running, x1. rewrite Hmode. reflexivity.
  - split; [reflexivity|].
    split; [intros nows; apply poll_disarmed; left; reflexivity|].
    split; [intros os Hos; apply exec_stopped; [exact Hos | reflexivity]|].
    split; reflexivity.
Qed.

Lemma oneshot_expires_once_witness :
  Timer.expired 111 (Timer.mk Timer.OneShot true 100 10)
  = (true, Timer.mk Timer.OneShot false 100 10)
  /\ Timer.poll [112; 500; 4000000000] (Timer.mk Timer.OneShot false 100 10)
     = ([false; false; false], Timer.mk Timer.OneShot false 100 10).
Proof.
  assert (Hto : Timer.m_timeoutMs (Timer.mk Timer.OneShot true 100 10) <> 0)
    by (simpl; discriminate).
  assert (Hgt : ULong.sub 111 (Timer.m_timerLastMs
                                 (Timer.mk Timer.OneShot true 100 10))
                > Timer.m_timeoutMs (Timer.mk Timer.OneShot true 100 10))
    by reflexivity.
  pose proof (oneshot_expires_once (Timer.mk Timer.OneShot true 100 10) 111
                eq_refl eq_refl Hto Hgt) as Hw.
  split.
  - exact (proj1 Hw).
  - exact (proj1 (proj2 (proj2 Hw)) [112; 500; 4000000000]).
Defined.

(** what [expired()] does to a timer armed in [Periodic] mode *)
Lemma expired_periodic (T now : Z) (x : Timer.t) :
  armed_periodic T x -> T <> 0 ->
  Timer.expired now x =
  if ULong.sub now (Timer.m_timerLastMs x) >? T
  then (true, Timer.mk Timer.Periodic true T now)
  else (false, x).
Proof.
  intros (Hmode & Hrun & HT) HT0.
  rewrite expired_eq, Hrun, Hmode, HT.
  apply to_bool_true in HT0. rewrite HT0. simpl.
  destruct (_ >? _); [|reflexivity].
  unfold Timer.set_m_timerLastMs. rewrite Hmode, Hrun, HT. reflexivity.
Qed.

Lemma expired_keeps_armed_periodic (T now : Z) (x : Timer.t) :
  armed_periodic T x -> armed_periodic T (snd (Timer.expired now x)).
Proof.
  intros Hx. destruct (Z.eq_dec T 0) as [HT0 | HT0].
  - destruct Hx as (Hmode & Hrun & HT).
    rewrite expired_disarmed by (right; congruence).
    simpl. repeat split; assumption.
  - rewrite (expired_periodic T now x Hx HT0).
    destruct (_ >? _); simpl; [|exact Hx].
    repeat split.
Qed.

Lemma poll_keeps_armed_periodic (T : Z) (nows : list Z) :
  forall x : Timer.t,
    armed_periodic T x -> armed_periodic T (snd (Timer.poll nows x)).
Proof.
  induction nows as [|now nows IH]; intros x Hx; simpl.
  - exact Hx.
  - pose proof (expired_keeps_armed_periodic T now x Hx) as Hx'.
    destruct (Timer.expired now x) as [r x']. simpl in Hx'.
    specialize (IH x' Hx').
    destruct (Timer.poll nows x') as [rs x'']. exact IH.
Qed.

Lemma sub_wrap_add (from d : Z) :
  ULong.sub (ULong.wrap (from + d)) from = ULong.wrap d.
Proof.
  unfold ULong.sub, ULong.wrap.
  rewrite Zminus_mod, Z.mod_mod by (rewrite modulus_value; lia).
  rewrite <- Zminus_mod. f_equal. lia.
Qed.

(** polled every [d] milliseconds, with [d > T], a [Periodic] timer fires
    at every poll *)
Lemma poll_readings_every (T d : Z) (n : nat) :
  T <> 0 -> ULong.wrap d > T ->
  forall x : Timer.t,
    armed_periodic T x ->
    fst (Timer.poll (readings_every d (Timer.m_timerLastMs x) n) x)
    = repeat true n.
Proof.
  intros HT Hd. induction n as [|n IH]; intros x Hx; simpl.
  - reflexivity.
  - rewrite (expired_periodic T _ x Hx HT), sub_wrap_add.
    apply Z.gtb_gt in Hd. rewrite Hd.
    specialize (IH (Timer.mk Timer.Periodic true T
                             (ULong.wrap (Timer.m_timerLastMs x + d)))).
    simpl in IH.
    destruct (Timer.poll _ _) as [rs x'']. simpl in *.
    f_equal. apply IH. repeat split.
Qed.

(** C4.  A running [Periodic] timer with a nonzero timeout whose
    [expired()] sees [now - m_timerLastMs > m_timeoutMs] returns true,
    assigns [m_timerLastMs = now] and stays running.  From the rebased
    timer, [expired()] read at [now'] returns false and changes nothing as
    long as [now' - now] (modulo [2^32]) does not exceed the timeout, and
    returns true and rebases to [now'] as soon as it does; no [start()] is
    involved, and after any number of [expired()] calls the timer is still
    running, [Periodic], with the same timeout, so the cycle goes on: polled
    at the spacing that made it fire the first time, it fires at each of any
    number of polls. *)
Theorem periodic_expiry_rebases :
  forall (x : Timer.t) (now : Z),
    Timer.m_mode x = Timer.Periodic ->
    Timer.m_running x = true ->
    Timer.m_timeoutMs x <> 0 ->
    ULong.sub now (Timer.m_timerLastMs x) > Timer.m_timeoutMs x ->
    let T := Timer.m_timeoutMs x in
    let x1 := Timer.mk Timer.Periodic true T now in
    Timer.expired now x = (true, x1)
    /\ Timer.running x1 = true
    /\ (forall now' : Z,
           ULong.sub now' now <= T -> Timer.expired now' x1 = (false, x1))
    /\ (forall now' : Z,
           ULong.sub now' now > T ->
           Timer.expired now' x1 = (true, Timer.mk Timer.Periodic true T now'))
    /\ (forall nows : list Z,
           Timer.m_mode (snd (Timer.poll nows x1)) = Timer.Periodic
           /\ Timer.running (snd (Timer.poll nows x1)) = true
           /\ Timer.m_timeoutMs (snd (Timer.poll nows x1)) = T)
    /\ (forall n : nat,
           fst (Timer.poll
                  (readings_every (ULong.sub now (Timer.m_timerLastMs x)) now n)
                  x1)
           = repeat true n).
Proof.
  intros x now Hmode Hrun Hto Hgt T x1.
  assert (Hx : armed_periodic T x) by (repeat split; assumption).
  assert (Hx1 : armed_periodic T x1) by (repeat split).
  split.
  - rewrite (expired_periodic T now x Hx Hto).
    apply Z.gtb_gt in Hgt. fold T in Hgt. rewrite Hgt. reflexivity.
  - split; [reflexivity|].
    split; [|split].
    + intros now' Hle. rewrite (expired_periodic T now' x1 Hx1 Hto). simpl.
      destruct (Z.gtb_spec (ULong.sub now' now) T); [lia | reflexivity].
    + intros now' Hgt'. rewrite (expired_periodic T now' x1 Hx1 Hto). simpl.
      apply Z.gtb_gt in Hgt'. rewrite Hgt'. reflexivity.
    + split; [intros nows; exact (poll_keeps_armed_periodic T nows x1 Hx1)|].
      intros n.
      assert (Hd : ULong.wrap (ULong.sub now (Timer.m_timerLastMs x)) > T)
        by (rewrite wrap_small; [exact Hgt | apply wrap_in_range]).
      exact (poll_readings_every T _ n Hto Hd x1 Hx1).
Qed.

Lemma periodic_expiry_rebases_witness :
  Timer.expired 111 (Timer.mk Timer.Periodic true 100 10)
  = (true, Timer.mk Timer.Periodic true 100 111)
  /\ Timer.expired 211 (Timer.mk Timer.Periodic true 100 111)
     = (false, Timer.mk Timer.Periodic true 100 111)
  /\ Timer.expired 212 (Timer.mk Timer.Periodic true 100 111)
     = (true, Timer.mk Timer.Periodic true 100 212).
Proof.
  assert (Hto : Timer.m_timeoutMs (Timer.mk Timer.Periodic true 100 10) <> 0)
    by (simpl; discriminate).
  assert (Hgt : ULong.sub 111 (Timer.m_timerLastMs
                                 (Timer.mk Timer.Periodic true 100 10))
                > Timer.m_timeoutMs (Timer.mk Timer.Periodic true 100 10))
    by reflexivity.
  pose proof (periodic_expiry_rebases (Timer.mk Timer.Periodic true 100 10) 111
                eq_refl eq_refl Hto Hgt) as Hw.
  split; [exact (proj1 Hw)|].
  split.
  - apply (proj1 (proj2 (proj2 Hw)) 211). vm_compute. discriminate.
  - apply (proj1 (proj2 (proj2 (proj2 Hw))) 212). reflexivity.
Defined.

(** C5.  When [m_running] is false or [m_timeoutMs] is 0, [expired()]
    returns false and leaves the timer as it is, for every reading of the
    counter, and so does every one of any number of [expired()] calls in a
    row.  In particular, after [setTimeout(0)] every [expired()] returns
    false whatever the timer was; once a nonzero timeout is set on a running
    timer, [expired()] is again decided by the elapsed time. *)
Theorem expired_false_when_disarmed :
  forall (x : Timer.t) (now : Z),
    Timer.m_running x = false \/ Timer.m_timeoutMs x = 0 ->
    Timer.expired now x = (false, x)
    /\ (forall nows : list Z,
           Timer.poll nows x = (repeat false (List.length nows), x))
    /\ (forall (y : Timer.t) (nows : list Z),
           Timer.poll nows (Timer.setTimeout 0 y)
           = (repeat false (List.length nows), Timer.setTimeout 0 y))
    /\ (forall (y : Timer.t) (ms now' : Z),
           Timer.m_running y = true -> ms <> 0 ->
           fst (Timer.expired now' (Timer.setTimeout ms (Timer.setTimeout 0 y)))
           = (ULong.sub now' (Timer.m_timerLastMs y) >? ms)).
Proof.
  intros x now Hx.
  split; [exact (expired_disarmed now x Hx)|].
  split; [intros nows; exact (poll_disarmed nows x Hx)|].
  split.
  - intros y nows. apply poll_disarmed. right. reflexivity.
  - intros y ms now' Hrun Hms. rewrite expired_result. simpl.
    apply to_bool_true in Hms. rewrite Hrun, Hms. reflexivity.
Qed.

Lemma expired_false_when_disarmed_witness :
  Timer.expired 4000000 (Timer.setTimeout 0 (Timer.mk Timer.Periodic true 100 10))
  = (false, Timer.mk Timer.Periodic true 0 10)
  /\ Timer.expired 4000000 (Timer.mk Timer.Periodic false 100 10)
     = (false, Timer.mk Timer.Periodic false 100 10).
Proof.
  split.
  - apply (expired_false_when_disarmed
             (Timer.setTimeout 0 (Timer.mk Timer.Periodic true 100 10)) 4000000).
    right. reflexivity.
  - apply (expired_false_when_disarmed
             (Timer.mk Timer.Periodic false 100 10) 4000000).
    left. reflexivity.
Defined.

(** C10.  Over the public methods of [Timer]: a call that turns
    [m_running] from false to true is a [start] (either overload), and every
    [start] sets it, [start(0)] included; a call that turns it from true to
    false is [stop()] or an [expired()] that returned true in [OneShot]
    mode.  Hence a timer started with timeout 0 answers false to every
    [expired()] and is unchanged, still running, after any number of them;
    [stop()] clears the flag, and so does, in [OneShot] mode, the first
    [expired()] that sees more than a newly set nonzero timeout elapsed. *)
Theorem running_flag_changes :
  (forall (o : Timer.Op) (x : Timer.t),
      Timer.m_running x = false ->
      Timer.m_running (snd (Timer.step o x)) = true ->
      Timer.is_start o = true)
  /\ (forall (o : Timer.Op) (x : Timer.t),
         Timer.is_start o = true ->
         Timer.running (snd (Timer.step o x)) = true)
  /\ (forall (o : Timer.Op) (x : Timer.t),
         Timer.m_running x = true ->
         Timer.m_running (snd (Timer.step o x)) = false ->
         o = Timer.OpStop
         \/ exists now : Z,
             o = Timer.OpExpired now
             /\ Timer.m_mode x = Timer.OneShot
             /\ fst (Timer.step o x) = Some true)
  /\ (forall (x : Timer.t) (now : Z) (nows : list Z),
         let x0 := Timer.start_with now 0 x in
         Timer.running x0 = true
         /\ Timer.poll nows x0 = (repeat false (List.length nows), x0))
  /\ (forall x : Timer.t, Timer.running (Timer.stop x) = false)
  /\ (forall (x : Timer.t) (now ms now' : Z),
         Timer.m_mode x = Timer.OneShot ->
         ms <> 0 ->
         ULong.sub now' now > ms ->
         let x1 := Timer.setTimeout ms (Timer.start_with now 0 x) in
         fst (Timer.expired now' x1) = true
         /\ Timer.running (snd (Timer.expired now' x1)) = false).
Proof.
  split; [|split; [|split; [|split; [|split]]]].
  - intros o x Hoff Hon. destruct o; simpl in *; try reflexivity.
    + rewrite (expired_disarmed now x (or_introl Hoff)) in Hon. simpl in Hon.
      congruence.
    + congruence.
    + congruence.
    + discriminate.
  - intros o x Ho. destruct o; simpl in *; try discriminate; reflexivity.
  - intros o x Hon Hoff. destruct o; simpl in *; try congruence.
    + right. exists now. split; [reflexivity|].
      rewrite expired_eq in *.
      destruct (Timer.m_running x && ULong.to_bool (Timer.m_timeoutMs x)
                && (ULong.sub now (Timer.m_timerLastMs x)
                    >? Timer.m_timeoutMs x)); simpl in *; [|congruence].
      destruct (Timer.m_mode x); simpl in *; [auto | congruence].
    + left. reflexivity.
  - intros x now nows x0. split; [reflexivity|].
    apply poll_disarmed. right. reflexivity.
  - intros x. reflexivity.
  - intros x now ms now' Hmode Hms Hgt x1.
    rewrite expired_eq. unfold x1. simpl.
    apply to_bool_true in Hms. rewrite Hms.
    apply Z.gtb_gt in Hgt. rewrite Hgt. simpl.
    rewrite Hmode. split; reflexivity.
Qed.

Lemma running_flag_changes_witness :
  Timer.is_start (Timer.OpStartWith 7 0) = true
  /\ Timer.running (snd (Timer.step (Timer.OpStartWith 7 0) Timer.ctor_default))
     = true
  /\ (Timer.OpExpired 111 = Timer.OpStop
      \/ exists now : Z,
          Timer.OpExpired 111 = Timer.OpExpired now
          /\ Timer.m_mode (Timer.mk Timer.OneShot true 100 10) = Timer.OneShot
          /\ fst (Timer.step (Timer.OpExpired 111)
                             (Timer.mk Timer.OneShot true 100 10)) = Some true).
Proof.
  destruct running_flag_changes as (Hon & Hstart & Hoff & _).
  split.
  - apply (Hon (Timer.OpStartWith 7 0) Timer.ctor_default); reflexivity.
  - split.
    + apply (Hstart (Timer.OpStartWith 7 0) Timer.ctor_default). reflexivity.
    + apply (Hoff (Timer.OpExpired 111) (Timer.mk Timer.OneShot true 100 10));
        reflexivity.
Defined.

(** ** The elapsed-time formatter *)

Lemma SECS_PER_DAY_value : ew.SECS_PER_DAY = 86400.
Proof. reflexivity. Qed.

Lemma numberOfDays_eq (seconds : Z) : ew.numberOfDays seconds = seconds / 86400.
Proof. reflexivity. Qed.

Lemma numberOfHours_eq (seconds : Z) :
  ew.numberOfHours seconds = (seconds mod 86400) / 3600.
Proof. reflexivity. Qed.

Lemma numberOfMinutes_eq (seconds : Z) :
  ew.numberOfMinutes seconds = (seconds / 60) mod 60.
Proof. reflexivity. Qed.

Lemma numberOfSeconds_eq (seconds : Z) :
  ew.numberOfSeconds seconds = seconds mod 60.
Proof. reflexivity. Qed.

Lemma components_nonneg (seconds : Z) :
  0 <= seconds ->
  0 <= seconds / 86400
  /\ 0 <= (seconds mod 86400) / 3600
  /\ 0 <= (seconds / 60) mod 60.
Proof.
  intros Hs. split; [apply Z.div_pos; lia|].
  split.
  - apply Z.div_pos; [|lia].
    apply (Z.mod_pos_bound seconds 86400). lia.
  - apply (Z.mod_pos_bound (seconds / 60) 60). lia.
Qed.

(** the code's choice is the specification's [select] *)
Lemma fmtElapsed_refines (vsnprintf : nat -> string -> list Z -> string)
      (seconds : Z) (all : bool) (fmts fmtm fmth fmtd : string) :
  0 <= seconds ->
  ew.fmtElapsed vsnprintf seconds all fmts fmtm fmth fmtd
  = let b := DurationFormatter.decompose seconds in
    let tpl := DurationFormatter.select all b in
    vsnprintf 64%nat (DurationFormatter.pick tpl fmts fmtm fmth fmtd)
              (DurationFormatter.components tpl b).
Proof.
  intros Hs. destruct (components_nonneg seconds Hs) as (Hd & Hh & Hm).
  unfold ew.fmtElapsed, ew.prtFmt, DurationFormatter.select,
    DurationFormatter.decompose. cbv zeta. simpl DurationFormatter.days.
  simpl DurationFormatter.hours. simpl DurationFormatter.minutes.
  rewrite numberOfDays_eq, numberOfHours_eq, numberOfMinutes_eq,
    numberOfSeconds_eq.
  rewrite !to_bool_nonneg by assumption.
  rewrite (orb_comm _ all).
  destruct (all || (seconds / 86400 >? 0)); [reflexivity|].
  destruct (seconds mod 86400 / 3600 >? 0); [reflexivity|].
  destruct ((seconds / 60) mod 60 >? 0); reflexivity.
Qed.

(** C7.  For every [seconds >= 0], every flag and every four templates:
    the components [fmtElapsed] computes are [seconds / 86400],
    [(seconds mod 86400) / 3600], [(seconds / 60) mod 60] and
    [seconds mod 60], and it formats with exactly one template, the one the
    specification's rule selects: the day template with all four components
    when [all] is set or days > 0; otherwise the hour template with (hours,
    minutes, seconds) when hours > 0; otherwise the minute template with
    (minutes, seconds) when minutes > 0; otherwise the seconds template.
    With 30 seconds and [all] set it is the day template with 0, 0, 0, 30. *)
Theorem fmtElapsed_selects_template :
  forall (vsnprintf : nat -> string -> list Z -> string)
         (seconds : Z) (all : bool) (fmts fmtm fmth fmtd : string),
    0 <= seconds ->
    let d := seconds / 86400 in
    let h := (seconds mod 86400) / 3600 in
    let m := (seconds / 60) mod 60 in
    let s := seconds mod 60 in
    let out := ew.fmtElapsed vsnprintf seconds all fmts fmtm fmth fmtd in
    (ew.numberOfDays seconds = d /\ ew.numberOfHours seconds = h
     /\ ew.numberOfMinutes seconds = m /\ ew.numberOfSeconds seconds = s)
    /\ out = (let b := DurationFormatter.decompose seconds in
              let tpl := DurationFormatter.select all b in
              vsnprintf 64%nat (DurationFormatter.pick tpl fmts fmtm fmth fmtd)
                        (DurationFormatter.components tpl b))
    /\ (all = true \/ d > 0 -> out = vsnprintf 64%nat fmtd [d; h; m; s])
    /\ (all = false -> ~ d > 0 -> h > 0 ->
        out = vsnprintf 64%nat fmth [h; m; s])
    /\ (all = false -> ~ d > 0 -> ~ h > 0 -> m > 0 ->
        out = vsnprintf 64%nat fmtm [m; s])
    /\ (all = false -> ~ d > 0 -> ~ h > 0 -> ~ m > 0 ->
        out = vsnprintf 64%nat fmts [s])
    /\ ew.fmtElapsed vsnprintf 30 true fmts fmtm fmth fmtd
       = vsnprintf 64%nat fmtd [0; 0; 0; 30].
Proof.
  intros vsnprintf seconds all fmts fmtm fmth fmtd Hs d h m s out.
  pose proof (fmtElapsed_refines vsnprintf seconds all fmts fmtm fmth fmtd Hs)
    as Href.
  fold out in Href.
  unfold DurationFormatter.select, DurationFormatter.decompose in Href.
  cbv zeta in Href. simpl DurationFormatter.days in Href.
  simpl DurationFormatter.hours in Href.
  simpl DurationFormatter.minutes in Href.
  fold d h m s in Href.
  split; [repeat split|].
  split; [exact (fmtElapsed_refines vsnprintf seconds all fmts fmtm fmth fmtd Hs)|].
  split; [|split; [|split; [|split]]].
  - intros Hday. rewrite Href.
    replace (all || (d >? 0)) with true; [reflexivity|].
    symmetry. apply orb_true_iff.
    destruct Hday as [Hall | Hd]; [left; exact Hall | right].
    apply Z.gtb_gt. exact Hd.
  - intros Hall Hd Hh. rewrite Href, Hall. simpl.
    destruct (Z.gtb_spec d 0); [lia|].
    destruct (Z.gtb_spec h 0); [reflexivity | lia].
  - intros Hall Hd Hh Hm. rewrite Href, Hall. simpl.
    destruct (Z.gtb_spec d 0); [lia|].
    destruct (Z.gtb_spec h 0); [lia|].
    destruct (Z.gtb_spec m 0); [reflexivity | lia].
  - intros Hall Hd Hh Hm. rewrite Href, Hall. simpl.
    destruct (Z.gtb_spec d 0); [lia|].
    destruct (Z.gtb_spec h 0); [lia|].
    destruct (Z.gtb_spec m 0); [lia | reflexivity].
  - reflexivity.
Qed.

Lemma fmtElapsed_selects_template_witness :
  0 <= 3725
  /\ ew.fmtElapsed Printf.vsnprintf 3725 false ew.default_fmts ew.default_fmtm
                   ew.default_fmth ew.default_fmtd
     = Printf.vsnprintf 64%nat ew.default_fmth [1; 2; 5].
Proof.
  assert (Hs : 0 <= 3725) by lia.
  split; [exact Hs|].
  apply (proj1 (proj2 (proj2 (proj2
           (fmtElapsed_selects_template Printf.vsnprintf 3725 false
              ew.default_fmts ew.default_fmtm ew.default_fmth ew.default_fmtd
              Hs))))).
  - reflexivity.
  - vm_compute. discriminate.
  - reflexivity.
Defined.

(** C8.  For every [seconds >= 0] the hours [numberOfHours] computes, from
    [seconds mod 86400], are the hours of what is left once the whole days
    are subtracted, [(seconds - 86400 * (seconds / 86400)) / 3600]; and for
    an [unsigned long] value the same holds when that residual is computed
    in [unsigned long] arithmetic, where nothing wraps. *)
Theorem numberOfHours_is_residual_hours :
  forall seconds : Z,
    0 <= seconds ->
    ew.numberOfHours seconds = (seconds mod 86400) / 3600
    /\ ew.numberOfHours seconds
       = (seconds - 86400 * (seconds / 86400)) / 3600
    /\ (seconds <= ULong.max ->
        ew.numberOfHours seconds = DurationFormatter.residual_hours seconds).
Proof.
  intros seconds Hs.
  assert (Hmod : seconds mod 86400 = seconds - 86400 * (seconds / 86400))
    by (apply Z.mod_eq; lia).
  split; [reflexivity|].
  split; [rewrite numberOfHours_eq, Hmod; reflexivity|].
  intros Hmax. rewrite numberOfHours_eq.
  unfold DurationFormatter.residual_hours, ULong.div, ULong.sub, ULong.mul.
  pose proof (Z.mod_pos_bound seconds 86400 ltac:(lia)) as Hb.
  assert (Hq : 0 <= seconds / 86400) by (apply Z.div_pos; lia).
  rewrite (wrap_small (86400 * (seconds / 86400)))
    by (unfold ULong.in_range; lia).
  rewrite <- Hmod.
  rewrite wrap_small by (unfold ULong.in_range; lia).
  reflexivity.
Qed.

Lemma numberOfHours_is_residual_hours_witness :
  0 <= 180000
  /\ ew.numberOfHours 180000 = (180000 - 86400 * (180000 / 86400)) / 3600
  /\ ew.numberOfHours 180000 = DurationFormatter.residual_hours 180000.
Proof.
  assert (Hs : 0 <= 180000) by lia.
  split; [exact Hs|].
  split.
  - exact (proj1 (proj2 (numberOfHours_is_residual_hours 180000 Hs))).
  - apply (proj2 (proj2 (numberOfHours_is_residual_hours 180000 Hs))).
    vm_compute. discriminate.
Defined.

(** * Further properties of the code *)

(** ** Sequences of commands *)

Lemma seq_fst {S : Type} (c1 c2 : Cmd S) (s : S) :
  fst ((c1 ;; c2) s) = fst (c1 s) ++ fst (c2 (snd (c1 s))).
Proof.
  unfold seq. destruct (c1 s) as [e1 s1]. simpl.
  destruct (c2 s1) as [e2 s2]. reflexivity.
Qed.

Lemma seq_snd {S : Type} (c1 c2 : Cmd S) (s : S) :
  snd ((c1 ;; c2) s) = snd (c2 (snd (c1 s))).
Proof.
  unfold seq. destruct (c1 s) as [e1 s1]. simpl.
  destruct (c2 s1) as [e2 s2]. reflexivity.
Qed.

Lemma calls_app (a b : list Event) : calls (a ++ b) = (calls a + calls b)%nat.
Proof. unfold calls. rewrite filter_app, length_app. reflexivity. Qed.

Lemma sub_le_max (a b : Z) : ULong.sub a b <= ULong.max.
Proof. unfold ULong.sub. apply (wrap_in_range (a - b)). Qed.

Lemma sub_nonneg (a b : Z) : 0 <= ULong.sub a b.
Proof. unfold ULong.sub. apply (wrap_in_range (a - b)). Qed.

Lemma sub_eq_zero (a b : Z) :
  ULong.in_range a -> ULong.in_range b -> (ULong.sub a b = 0 <-> a = b).
Proof.
  unfold ULong.in_range, ULong.sub, ULong.wrap, ULong.max.
  rewrite modulus_value. intros Ha Hb. split.
  - intros H0. apply Z.mod_divide in H0; [|lia].
    destruct H0 as [k Hk].
    assert (k = 0) by nia. subst k. lia.
  - intros ->. rewrite Z.sub_diag. reflexivity.
Qed.

Lemma last_cons_default (u d : Z) (ts : list Z) :
  last (u :: ts) d = last ts u.
Proof.
  revert u d. induction ts as [|v ts IH]; intros u d; [reflexivity|].
  change (last (u :: v :: ts) d) with (last (v :: ts) d).
  rewrite IH. symmetry. apply IH.
Qed.

Lemma nondecreasing_last (ts : list Z) :
  forall t, nondecreasing_from t ts -> t <= last ts t.
Proof.
  induction ts as [|u ts IH]; intros t Hts.
  - simpl. lia.
  - destruct Hts as [Htu Hts]. rewrite last_cons_default.
    specialize (IH u Hts). lia.
Qed.

Lemma nondecreasing_weaken (ts : list Z) (t u : Z) :
  t <= u -> nondecreasing_from u ts -> nondecreasing_from t ts.
Proof.
  intros Htu. destruct ts as [|v ts]; simpl; [trivial|].
  intros [Huv Hts]. split; [lia | exact Hts].
Qed.

Lemma last_default_le (ts : list Z) (t u : Z) :
  t <= u -> nondecreasing_from u ts -> last ts t <= last ts u.
Proof.
  intros Htu Hts. destruct ts as [|v ts].
  - simpl. exact Htu.
  - rewrite !last_cons_default. lia.
Qed.

(** ** More about the gates *)

Lemma run_closed (Heap : Type)
      (f : Periodical.Store Heap -> Periodical.Store Heap) (now : Z)
      (s : Periodical.Store Heap) :
  ULong.sub now (Periodical.m_prev (Periodical.this s))
  <= Periodical.m_ms (Periodical.this s) ->
  Periodical.run (Some f) now s = ([], s).
Proof.
  intros Hle. rewrite run_eq.
  destruct (Z.gtb_spec (ULong.sub now (Periodical.m_prev (Periodical.this s)))
                       (Periodical.m_ms (Periodical.this s)));
    [lia | reflexivity].
Qed.

Lemma run_base_closed (D : Type) (T : PeriodicalBase.Task D) (now : Z)
      (b : PeriodicalBase.Derived D) :
  ULong.sub now (PeriodicalBase.m_prev (PeriodicalBase.base b))
  <= PeriodicalBase.m_period_ms (PeriodicalBase.base b) ->
  PeriodicalBase.run now b = ([], b).
Proof.
  intros Hle. rewrite run_base_eq.
  destruct (Z.gtb_spec
              (ULong.sub now (PeriodicalBase.m_prev (PeriodicalBase.base b)))
              (PeriodicalBase.m_period_ms (PeriodicalBase.base b)));
    [lia | reflexivity].
Qed.

(** X1.  A gate whose period is [ULONG_MAX] (or more) never calls its
    action: however often and at whatever counter readings [run()] is
    called, nothing is assigned and nothing is called, because a difference
    of two readings cannot exceed [ULONG_MAX]. *)
Theorem gate_with_max_period_never_fires :
  forall (Heap D : Type) (T : PeriodicalBase.Task D)
         (f : Periodical.Store Heap -> Periodical.Store Heap)
         (nows : list Z)
         (s : Periodical.Store Heap) (b : PeriodicalBase.Derived D),
    ULong.max <= Periodical.m_ms (Periodical.this s) ->
    ULong.max <= PeriodicalBase.m_period_ms (PeriodicalBase.base b) ->
    run_each (Some f) nows s = ([], s)
    /\ run_base_each nows b = ([], b).
Proof.
  intros Heap D T f nows s b Hs Hb. split.
  - induction nows as [|now nows IH]; simpl; [reflexivity|].
    unfold seq. rewrite run_closed, IH; [reflexivity|].
    pose proof (sub_le_max now (Periodical.m_prev (Periodical.this s))). lia.
  - induction nows as [|now nows IH]; simpl; [reflexivity|].
    unfold seq. rewrite run_base_closed, IH; [reflexivity|].
    pose proof (sub_le_max now (PeriodicalBase.m_prev (PeriodicalBase.base b))).
    lia.
Qed.

Lemma gate_with_max_period_never_fires_witness :
  run_each (Some count_up) [0; 5000; 4294967295; 17]
           (Periodical.mkStore (Periodical.mk 4294967295 1) 0%nat)
  = ([], Periodical.mkStore (Periodical.mk 4294967295 1) 0%nat).
Proof.
  apply (gate_with_max_period_never_fires nat nat counting_task count_up
           [0; 5000; 4294967295; 17]
           (Periodical.mkStore (Periodical.mk 4294967295 1) 0%nat)
           (PeriodicalBase.mkDerived (PeriodicalBase.mk 4294967295 1) 0%nat)).
  - vm_compute. discriminate.
  - vm_compute. discriminate.
Defined.

(** X2.  A gate whose period is 0 calls its action at every [run()] whose
    counter reading differs from [m_prev], and only then: two calls within
    the same millisecond fire once. *)
Theorem gate_with_zero_period_fires_on_change :
  forall (Heap D : Type) (T : PeriodicalBase.Task D)
         (f : Periodical.Store Heap -> Periodical.Store Heap) (now : Z)
         (s : Periodical.Store Heap) (b : PeriodicalBase.Derived D),
    ULong.in_range now ->
    ULong.in_range (Periodical.m_prev (Periodical.this s)) ->
    Periodical.m_ms (Periodical.this s) = 0 ->
    ULong.in_range (PeriodicalBase.m_prev (PeriodicalBase.base b)) ->
    PeriodicalBase.m_period_ms (PeriodicalBase.base b) = 0 ->
    (fires (Periodical.run (Some f) now s)
     <-> now <> Periodical.m_prev (Periodical.this s))
    /\ (fires (PeriodicalBase.run now b)
        <-> now <> PeriodicalBase.m_prev (PeriodicalBase.base b)).
Proof.
  intros Heap D T f now s b Hnow Hs Hs0 Hb Hb0. split.
  - rewrite run_fires_iff, Hs0.
    pose proof (sub_eq_zero now _ Hnow Hs) as Hz.
    pose proof (sub_nonneg now (Periodical.m_prev (Periodical.this s))).
    split; intros Hx; [intros Heq; apply Hz in Heq; lia|].
    assert (ULong.sub now (Periodical.m_prev (Periodical.this s)) <> 0)
      by (intros H0; apply Hx, Hz, H0).
    lia.
  - rewrite run_base_fires_iff, Hb0.
    pose proof (sub_eq_zero now _ Hnow Hb) as Hz.
    pose proof (sub_nonneg now (PeriodicalBase.m_prev (PeriodicalBase.base b))).
    split; intros Hx; [intros Heq; apply Hz in Heq; lia|].
    assert (ULong.sub now (PeriodicalBase.m_prev (PeriodicalBase.base b)) <> 0)
      by (intros H0; apply Hx, Hz, H0).
    lia.
Qed.

Lemma gate_with_zero_period_fires_on_change_witness :
  (fires (Periodical.run (Some count_up) 8
            (Periodical.mkStore (Periodical.mk 0 8) 0%nat)) <-> 8 <> 8)
  /\ (fires (PeriodicalBase.run 8
               (PeriodicalBase.mkDerived (PeriodicalBase.mk 0 7) 0%nat))
      <-> 8 <> 7).
Proof.
  apply (gate_with_zero_period_fires_on_change nat nat counting_task count_up).
  - vm_compute. split; discriminate.
  - vm_compute. split; discriminate.
  - reflexivity.
  - vm_compute. split; discriminate.
  - reflexivity.
Defined.

Lemma sub_millis_wraps (t_last k e : Z) :
  0 <= e <= ULong.max ->
  ULong.sub (millis (t_last + k * ULong.modulus + e)) (millis t_last) = e.
Proof.
  intros He. rewrite sub_millis.
  replace (t_last + k * ULong.modulus + e - t_last)
    with (e + k * ULong.modulus) by lia.
  unfold ULong.wrap. rewrite Z_mod_plus_full.
  apply (wrap_small e). exact He.
Qed.

(** X3.  The gates and the timer see the elapsed time only modulo [2^32].
    When the true elapsed time since the reference reading is [k] whole
    trips of the counter plus [e] milliseconds with [e] not above the
    period, [run()] does nothing and [expired()] returns false and changes
    nothing, although [k * 2^32 + e] milliseconds have gone by. *)
Theorem whole_wraps_are_not_seen :
  forall (Heap D : Type) (T : PeriodicalBase.Task D)
         (f : Periodical.Store Heap -> Periodical.Store Heap)
         (h : Heap) (d : D) (x : Timer.t) (period t_last k e : Z),
    0 <= e <= period ->
    e <= ULong.max ->
    Timer.m_timeoutMs x = period ->
    let t_now := t_last + k * ULong.modulus + e in
    let s := Periodical.mkStore (Periodical.mk period (millis t_last)) h in
    let b := PeriodicalBase.mkDerived
               (PeriodicalBase.mk period (millis t_last)) d in
    let x0 := Timer.set_m_timerLastMs (millis t_last) x in
    Periodical.run (Some f) (millis t_now) s = ([], s)
    /\ PeriodicalBase.run (millis t_now) b = ([], b)
    /\ Timer.expired (millis t_now) x0 = (false, x0).
Proof.
  intros Heap D T f h d x period t_last k e He Hmax Hx t_now s b x0.
  assert (Hsub : ULong.sub (millis t_now) (millis t_last) = e)
    by (apply sub_millis_wraps; lia).
  split; [apply run_closed; simpl; rewrite Hsub; lia|].
  split; [apply run_base_closed; simpl; rewrite Hsub; lia|].
  rewrite expired_eq. unfold x0. simpl. rewrite Hsub, Hx.
  destruct (Z.gtb_spec e period); [lia|].
  rewrite andb_false_r. reflexivity.
Qed.

Lemma whole_wraps_are_not_seen_witness :
  Periodical.run (Some count_up) 105
    (Periodical.mkStore (Periodical.mk 1000 100) 0%nat)
  = ([], Periodical.mkStore (Periodical.mk 1000 100) 0%nat)
  /\ millis (100 + 1 * ULong.modulus + 5) = 105.
Proof.
  split; [|reflexivity].
  assert (He : 0 <= 5 <= 1000) by lia.
  assert (Hmax : 5 <= ULong.max) by (vm_compute; discriminate).
  exact (proj1 (whole_wraps_are_not_seen nat nat counting_task count_up
                  0%nat 0%nat (Timer.mk Timer.Periodic true 1000 0)
                  1000 100 1 5 He Hmax eq_refl)).
Defined.

(** what a run of a gate whose action leaves the gate alone does to the
    gate's members *)
Lemma run_this (Heap : Type)
      (f : Periodical.Store Heap -> Periodical.Store Heap) (now : Z)
      (s : Periodical.Store Heap) :
  preserves_this f ->
  Periodical.this (snd (Periodical.run (Some f) now s)) =
  if ULong.sub now (Periodical.m_prev (Periodical.this s))
     >? Periodical.m_ms (Periodical.this s)
  then Periodical.mk (Periodical.m_ms (Periodical.this s)) now
  else Periodical.this s.
Proof.
  intros Hf. rewrite run_eq. destruct (_ >? _); simpl; [|reflexivity].
  rewrite Hf. reflexivity.
Qed.

Lemma run_base_base (D : Type) (T : PeriodicalBase.Task D) (now : Z)
      (b : PeriodicalBase.Derived D) :
  preserves_base ->
  PeriodicalBase.base (snd (PeriodicalBase.run now b)) =
  if ULong.sub now (PeriodicalBase.m_prev (PeriodicalBase.base b))
     >? PeriodicalBase.m_period_ms (PeriodicalBase.base b)
  then PeriodicalBase.mk (PeriodicalBase.m_period_ms (PeriodicalBase.base b))
                         now
  else PeriodicalBase.base b.
Proof.
  intros Hf. rewrite run_base_eq. destruct (_ >? _); simpl; [|reflexivity].
  rewrite Hf. reflexivity.
Qed.

Lemma run_each_rate (Heap : Type)
      (f : Periodical.Store Heap -> Periodical.Store Heap) (period : Z) :
  preserves_this f ->
  forall (ts : list Z) (tl : Z) (s : Periodical.Store Heap),
    Periodical.this s = Periodical.mk period (millis tl) ->
    nondecreasing_from tl ts ->
    last ts tl - tl <= ULong.max ->
    Z.of_nat (calls (fst (run_each (Some f) (map millis ts) s))) * (period + 1)
    <= last ts tl - tl.
Proof.
  intros Hf. induction ts as [|u ts IH]; intros tl s Hs Hts Hspan.
  - simpl. lia.
  - destruct Hts as [Htu Hts]. rewrite last_cons_default in *.
    pose proof (nondecreasing_last ts u Hts) as Hlast.
    simpl map. simpl run_each. rewrite seq_fst, calls_app, Nat2Z.inj_add.
    pose proof (run_this Heap f (millis u) s Hf) as Hthis.
    rewrite run_eq in *. rewrite Hs in *.
    cbn [Periodical.m_prev Periodical.m_ms] in *.
    rewrite sub_millis_exact in * by lia.
    destruct (Z.gtb_spec (u - tl) period) as [Hgt | Hle]; cbn [fst snd] in *.
    + specialize (IH u _ Hthis Hts ltac:(lia)).
      change (calls [EvSetPrev (millis u); EvCall]) with 1%nat. lia.
    + specialize (IH tl s Hs (nondecreasing_weaken ts tl u Htu Hts)).
      pose proof (last_default_le ts tl u Htu Hts).
      change (calls []) with 0%nat. lia.
Qed.

Lemma run_base_each_rate (D : Type) (T : PeriodicalBase.Task D) (period : Z) :
  preserves_base ->
  forall (ts : list Z) (tl : Z) (b : PeriodicalBase.Derived D),
    PeriodicalBase.base b = PeriodicalBase.mk period (millis tl) ->
    nondecreasing_from tl ts ->
    last ts tl - tl <= ULong.max ->
    Z.of_nat (calls (fst (run_base_each (map millis ts) b))) * (period + 1)
    <= last ts tl - tl.
Proof.
  intros Hf. induction ts as [|u ts IH]; intros tl b Hb Hts Hspan.
  - simpl. lia.
  - destruct Hts as [Htu Hts]. rewrite last_cons_default in *.
    pose proof (nondecreasing_last ts u Hts) as Hlast.
    simpl map. simpl run_base_each. rewrite seq_fst, calls_app, Nat2Z.inj_add.
    pose proof (run_base_base D T (millis u) b Hf) as Hbase.
    rewrite run_base_eq in *. rewrite Hb in *.
    cbn [PeriodicalBase.m_prev PeriodicalBase.m_period_ms] in *.
    rewrite sub_millis_exact in * by lia.
    destruct (Z.gtb_spec (u - tl) period) as [Hgt | Hle]; cbn [fst snd] in *.
    + specialize (IH u _ Hbase Hts ltac:(lia)).
      change (calls [EvSetPrev (millis u); EvCall]) with 1%nat. lia.
    + specialize (IH tl b Hb (nondecreasing_weaken ts tl u Htu Hts)).
      pose proof (last_default_le ts tl u Htu Hts).
      change (calls []) with 0%nat. lia.
Qed.

(** X4.  A main loop that runs a gate at true times that do not go
    backwards, over a span that fits in the counter, with an action that
    does not write the gate's own members: every call of the action is more
    than [period] milliseconds after the one before (or after the initial
    reference reading), so [n] calls need at least [n * (period + 1)]
    milliseconds.  For both variants. *)
Theorem gate_calls_are_spaced :
  forall (Heap D : Type) (T : PeriodicalBase.Task D)
         (f : Periodical.Store Heap -> Periodical.Store Heap)
         (h : Heap) (d : D) (period tp : Z) (ts : list Z),
    preserves_this f ->
    preserves_base ->
    nondecreasing_from tp ts ->
    last ts tp - tp <= ULong.max ->
    Z.of_nat (calls (fst (run_each (Some f) (map millis ts)
                            (Periodical.mkStore
                               (Periodical.mk period (millis tp)) h))))
    * (period + 1) <= last ts tp - tp
    /\ Z.of_nat (calls (fst (run_base_each (map millis ts)
                               (PeriodicalBase.mkDerived
                                  (PeriodicalBase.mk period (millis tp)) d))))
       * (period + 1) <= last ts tp - tp.
Proof.
  intros Heap D T f h d period tp ts Hf Hb Hts Hspan. split.
  - apply (run_each_rate Heap f period Hf); [reflexivity | exact Hts | exact Hspan].
  - apply (run_base_each_rate D T period Hb);
      [reflexivity | exact Hts | exact Hspan].
Qed.

Lemma gate_calls_are_spaced_witness :
  calls (fst (run_each (Some count_up)
                (map millis [4294967290; 4294968291; 4294968292; 4294969293])
                (Periodical.mkStore (Periodical.mk 1000 (millis 4294967000))
                                    0%nat))) = 2%nat
  /\ 2 * (1000 + 1) <= 4294969293 - 4294967000.
Proof.
  split; [reflexivity|].
  assert (Hf : preserves_this count_up) by (intros s; reflexivity).
  assert (Hb : @preserves_base nat counting_task) by (intros b; reflexivity).
  assert (Hts : nondecreasing_from 4294967000
                  [4294967290; 4294968291; 4294968292; 4294969293])
    by (simpl; lia).
  assert (Hspan : last [4294967290; 4294968291; 4294968292; 4294969293]
                       4294967000 - 4294967000 <= ULong.max)
    by (vm_compute; discriminate).
  exact (proj1 (gate_calls_are_spaced nat nat counting_task count_up
                  0%nat 0%nat 1000 4294967000
                  [4294967290; 4294968291; 4294968292; 4294969293]
                  Hf Hb Hts Hspan)).
Defined.

(** X5.  [setPeriodS] multiplies by 1000 in [unsigned long] arithmetic and
    does not guard the product: the period it stores is
    [period_s * 1000 mod 2^32] (and [m_prev] is untouched), so
    [getPeriodS] gives back the seconds that were set exactly when
    [period_s * 1000] fits in an [unsigned long], that is for
    [period_s <= 4294967]. *)
Theorem setPeriodS_round_trip :
  forall (p : PeriodicalBase.t) (period_s : Z),
    0 <= period_s ->
    PeriodicalBase.getPeriodMs (PeriodicalBase.setPeriodS period_s p)
    = (period_s * 1000) mod ULong.modulus
    /\ PeriodicalBase.m_prev (PeriodicalBase.setPeriodS period_s p)
       = PeriodicalBase.m_prev p
    /\ (PeriodicalBase.getPeriodS (PeriodicalBase.setPeriodS period_s p)
        = period_s
        <-> period_s * 1000 <= ULong.max)
    /\ (period_s * 1000 <= ULong.max <-> period_s <= 4294967).
Proof.
  intros p period_s Hs.
  unfold PeriodicalBase.getPeriodS, PeriodicalBase.getPeriodMs,
    PeriodicalBase.setPeriodS, PeriodicalBase.setPeriodMs, ULong.mul,
    ULong.div, ULong.wrap, ULong.max. simpl.
  rewrite modulus_value.
  split; [reflexivity|]. split; [reflexivity|].
  split; [|lia].
  split.
  - intros Hrt.
    pose proof (Z.mod_pos_bound (period_s * 1000) 4294967296 ltac:(lia)).
    assert (period_s * 1000 <= (period_s * 1000) mod 4294967296).
    { rewrite <- Hrt at 1. rewrite Z.mul_comm.
      apply Z.mul_div_le. lia. }
    lia.
  - intros Hfit. rewrite Z.mod_small by lia. apply Z.div_mul. lia.
Qed.

Lemma setPeriodS_round_trip_witness :
  PeriodicalBase.getPeriodMs
    (PeriodicalBase.setPeriodS 4294968 (PeriodicalBase.ctor 1000)) = 704
  /\ PeriodicalBase.getPeriodS
       (PeriodicalBase.setPeriodS 4294967 (PeriodicalBase.ctor 1000))
     = 4294967.
Proof.
  split.
  - assert (Hs : 0 <= 4294968) by lia.
    exact (proj1 (setPeriodS_round_trip (PeriodicalBase.ctor 1000) 4294968 Hs)).
  - assert (Hs : 0 <= 4294967) by lia.
    apply (proj2 (proj2 (setPeriodS_round_trip (PeriodicalBase.ctor 1000)
                           4294967 Hs))).
    vm_compute. discriminate.
Defined.

(** ** The macros *)



(** X7.  [PdS(NAME, MS) ... PdE(NAME)] does not use its [MS] argument and
    keeps nothing from one execution to the next: the object is built anew
    with period 3000 and [m_prev = 0], so the block runs at every execution
    at which the counter reads more than 3000, and at no other.  Two
    executions in a row, even within the same millisecond, both run it. *)
Theorem PdS_PdE_ignores_period_and_history :
  forall (Heap : Type) (MS MS' : Z) (body : Heap -> Heap) (now now' : Z)
         (h : Heap),
    ULong.in_range now ->
    ULong.in_range now' ->
    Macros.PdS_PdE MS body now h
    = (if now >? 3000 then ([EvSetPrev now; EvCall], body h) else ([], h))
    /\ Macros.PdS_PdE MS body now h = Macros.PdS_PdE MS' body now h
    /\ (3000 < now -> 3000 < now' ->
        Macros.PdS_PdE MS body now'
          (snd (Macros.PdS_PdE MS body now h))
        = ([EvSetPrev now'; EvCall], body (body h))).
Proof.
  intros Heap MS MS' body now now' h Hnow Hnow'.
  assert (Heq : forall n k, ULong.in_range n ->
             Macros.PdS_PdE MS body n k
             = (if n >? 3000 then ([EvSetPrev n; EvCall], body k)
                else ([], k))).
  { intros n k Hn.
    unfold Macros.PdS_PdE, Periodical.ctor, Periodical.call_operator.
    rewrite run_eq. simpl. rewrite (sub_zero n Hn).
    destruct (n >? 3000); reflexivity. }
  split; [apply Heq, Hnow|].
  split; [reflexivity|].
  intros Hgt Hgt'. rewrite !Heq by assumption.
  apply Z.gtb_lt in Hgt, Hgt'. rewrite Hgt, Hgt'. reflexivity.
Qed.

Lemma PdS_PdE_ignores_period_and_history_witness :
  Macros.PdS_PdE 60000 S 3002 (snd (Macros.PdS_PdE 60000 S 3001 0%nat))
  = ([EvSetPrev 3002; EvCall], 2%nat).
Proof.
  assert (H1 : ULong.in_range 3001) by (vm_compute; split; discriminate).
  assert (H2 : ULong.in_range 3002) by (vm_compute; split; discriminate).
  apply (proj2 (proj2 (PdS_PdE_ignores_period_and_history nat 60000 1 S
                         3001 3002 0%nat H1 H2))); reflexivity.
Defined.

(** ** More about the timer *)

(** X8.  A timer that was just constructed, whatever its timeout and mode,
    and a timer that was stopped, answer false to every [expired()] and stay
    stopped through any sequence of calls in which there is no [start]. *)
Theorem idle_timer_waits_for_start :
  forall (timeout : Z) (mode : Timer.Mode) (x : Timer.t) (os : list Timer.Op),
    no_start os = true ->
    (all_false (fst (Timer.exec os (Timer.ctor timeout mode)))
     /\ Timer.running (snd (Timer.exec os (Timer.ctor timeout mode))) = false)
    /\ (all_false (fst (Timer.exec os (Timer.stop x)))
        /\ Timer.running (snd (Timer.exec os (Timer.stop x))) = false).
Proof.
  intros timeout mode x os Hos.
  split; apply exec_stopped; try exact Hos; reflexivity.
Qed.

Lemma idle_timer_waits_for_start_witness :
  all_false (fst (Timer.exec [Timer.OpExpired 5000; Timer.OpSetTimeout 10;
                              Timer.OpSetMode Timer.Periodic;
                              Timer.OpExpired 4000000000]
                             (Timer.ctor 100 Timer.OneShot))).
Proof.
  exact (proj1 (proj1 (idle_timer_waits_for_start 100 Timer.OneShot
                         Timer.ctor_default
                         [Timer.OpExpired 5000; Timer.OpSetTimeout 10;
                          Timer.OpSetMode Timer.Periodic;
                          Timer.OpExpired 4000000000] eq_refl))).
Defined.

(** X9.  After [start(T)] at true time [t0], with [T] not 0, an
    [expired()] at true time [t], not before [t0] and no more than
    [ULONG_MAX] after it, returns true exactly when [t - t0 > T]: at
    [t0 + T] it still returns false and leaves the timer as it is.  When it
    returns true the timer is stopped ([OneShot]) or rebased to the reading
    at [t] ([Periodic]).  [start()] without argument is [start] with the
    timeout the timer has. *)
Theorem start_then_expired :
  forall (x : Timer.t) (T t0 t : Z),
    T <> 0 ->
    0 <= t - t0 <= ULong.max ->
    let x0 := Timer.start_with (millis t0) T x in
    Timer.expired (millis t) x0
    = (if t - t0 >? T
       then (true,
             match Timer.m_mode x with
             | Timer.OneShot => Timer.mk Timer.OneShot false T (millis t0)
             | Timer.Periodic => Timer.mk Timer.Periodic true T (millis t)
             end)
       else (false, x0))
    /\ (Timer.m_timeoutMs x = T -> Timer.start (millis t0) x = x0).
Proof.
  intros x T t0 t HT Hd x0. split.
  - rewrite expired_eq. unfold x0. simpl.
    rewrite (sub_millis_exact t0 t Hd).
    apply to_bool_true in HT. rewrite HT. simpl.
    destruct (t - t0 >? T); [|reflexivity].
    unfold Timer.set_m_running, Timer.set_m_timerLastMs. simpl.
    destruct (Timer.m_mode x); reflexivity.
  - intros HTx. unfold Timer.start. rewrite HTx. reflexivity.
Qed.

Lemma start_then_expired_witness :
  Timer.expired (millis (4294967290 + 100))
                (Timer.start_with (millis 4294967290) 100 Timer.ctor_default)
  = (false, Timer.mk Timer.OneShot true 100 4294967290)
  /\ Timer.expired (millis (4294967290 + 101))
                   (Timer.start_with (millis 4294967290) 100 Timer.ctor_default)
     = (true, Timer.mk Timer.OneShot false 100 4294967290).
Proof.
  assert (HT : 100 <> 0) by discriminate.
  split.
  - assert (Hd : 0 <= 4294967290 + 100 - 4294967290 <= ULong.max)
      by (vm_compute; split; discriminate).
    exact (proj1 (start_then_expired Timer.ctor_default 100 4294967290
                    (4294967290 + 100) HT Hd)).
  - assert (Hd : 0 <= 4294967290 + 101 - 4294967290 <= ULong.max)
      by (vm_compute; split; discriminate).
    exact (proj1 (start_then_expired Timer.ctor_default 100 4294967290
                    (4294967290 + 101) HT Hd)).
Defined.

Lemma count_true_repeat_false (n : nat) : count_true (repeat false n) = 0.
Proof.
  unfold count_true. induction n as [|n IH]; simpl; [reflexivity | exact IH].
Qed.

Lemma count_true_only_first (bs : list bool) : count_true (only_first bs) <= 1.
Proof.
  induction bs as [|[|] bs IH].
  - unfold count_true. simpl. lia.
  - simpl only_first.
    change (count_true (true :: repeat false (List.length bs)))
      with (Z.of_nat (S (List.length
                           (filter (fun r => r) (repeat false (List.length bs)))))).
    pose proof (count_true_repeat_false (List.length bs)) as H0.
    unfold count_true in H0. lia.
  - simpl only_first. exact IH.
Qed.

Lemma poll_oneshot (T : Z) (nows : list Z) :
  T <> 0 ->
  forall x : Timer.t,
    Timer.m_mode x = Timer.OneShot ->
    Timer.m_running x = true ->
    Timer.m_timeoutMs x = T ->
    fst (Timer.poll nows x)
    = only_first
        (map (fun now => ULong.sub now (Timer.m_timerLastMs x) >? T) nows).
Proof.
  intros HT. induction nows as [|now nows IH]; intros x Hmode Hrun HTx.
  - reflexivity.
  - simpl. rewrite expired_eq, Hrun, Hmode, HTx.
    pose proof HT as HT'. apply to_bool_true in HT'. rewrite HT'. simpl.
    destruct (ULong.sub now (Timer.m_timerLastMs x) >? T).
    + rewrite poll_disarmed by (left; reflexivity). simpl.
      rewrite length_map. reflexivity.
    + specialize (IH x Hmode Hrun HTx).
      destruct (Timer.poll nows x) as [rs x']. simpl in *.
      rewrite IH. reflexivity.
Qed.

(** X10.  A running [OneShot] timer with a nonzero timeout, polled at any
    readings: [expired()] returns true at the first reading whose
    difference to [m_timerLastMs] exceeds the timeout and at no other, so at
    most one of the calls returns true. *)
Theorem oneshot_poll_marks_first_expiry :
  forall (x : Timer.t) (nows : list Z),
    Timer.m_mode x = Timer.OneShot ->
    Timer.m_running x = true ->
    Timer.m_timeoutMs x <> 0 ->
    fst (Timer.poll nows x)
    = only_first
        (map (fun now =>
                ULong.sub now (Timer.m_timerLastMs x) >? Timer.m_timeoutMs x)
             nows)
    /\ count_true (fst (Timer.poll nows x)) <= 1.
Proof.
  intros x nows Hmode Hrun HT.
  pose proof (poll_oneshot (Timer.m_timeoutMs x) nows HT x Hmode Hrun eq_refl)
    as Hp.
  split; [exact Hp|].
  rewrite Hp. apply count_true_only_first.
Qed.

Lemma oneshot_poll_marks_first_expiry_witness :
  fst (Timer.poll [50; 120; 90; 300] (Timer.mk Timer.OneShot true 100 10))
  = [false; true; false; false].
Proof.
  assert (HT : Timer.m_timeoutMs (Timer.mk Timer.OneShot true 100 10) <> 0)
    by (simpl; discriminate).
  exact (proj1 (oneshot_poll_marks_first_expiry
                  (Timer.mk Timer.OneShot true 100 10) [50; 120; 90; 300]
                  eq_refl eq_refl HT)).
Defined.

Lemma count_true_cons (r : bool) (rs : list bool) :
  count_true (r :: rs) = (if r then 1 else 0) + count_true rs.
Proof.
  unfold count_true. destruct r; simpl filter; [|lia].
  change (List.length (true :: filter (fun r => r) rs))
    with (S (List.length (filter (fun r => r) rs))).
  lia.
Qed.

Lemma poll_periodic_rate (T : Z) :
  T <> 0 ->
  forall (ts : list Z) (tl : Z) (x : Timer.t),
    armed_periodic T x ->
    Timer.m_timerLastMs x = millis tl ->
    nondecreasing_from tl ts ->
    last ts tl - tl <= ULong.max ->
    count_true (fst (Timer.poll (map millis ts) x)) * (T + 1)
    <= last ts tl - tl.
Proof.
  intros HT. induction ts as [|u ts IH]; intros tl x Hx Hlastx Hts Hspan.
  - simpl. unfold count_true. simpl. lia.
  - destruct Hts as [Htu Hts]. rewrite last_cons_default in *.
    pose proof (nondecreasing_last ts u Hts) as Hlast.
    simpl map. simpl Timer.poll.
    rewrite (expired_periodic T (millis u) x Hx HT), Hlastx.
    rewrite sub_millis_exact by lia.
    destruct (Z.gtb_spec (u - tl) T) as [Hgt | Hle].
    + specialize (IH u (Timer.mk Timer.Periodic true T (millis u))).
      destruct (Timer.poll (map millis ts) _) as [rs x']. cbn [fst] in *.
      rewrite count_true_cons.
      assert (Hrs : count_true rs * (T + 1) <= last ts u - u).
      { apply IH; [repeat split | reflexivity | exact Hts | lia]. }
      lia.
    + specialize (IH tl x Hx Hlastx (nondecreasing_weaken ts tl u Htu Hts)).
      pose proof (last_default_le ts tl u Htu Hts).
      destruct (Timer.poll (map millis ts) x) as [rs x']. cbn [fst] in *.
      rewrite count_true_cons.
      assert (Hrs : count_true rs * (T + 1) <= last ts tl - tl)
        by (apply IH; lia).
      lia.
Qed.

(** X11.  A [Periodic] timer started at true time [t0] with a nonzero
    timeout [T] and polled at true times that do not go backwards, over a
    span that fits in the counter: each [expired()] that returns true is
    more than [T] milliseconds after the one before (or after the start),
    so [n] expiries need at least [n * (T + 1)] milliseconds. *)
Theorem periodic_expiries_are_spaced :
  forall (x : Timer.t) (T t0 : Z) (ts : list Z),
    T <> 0 ->
    Timer.m_mode x = Timer.Periodic ->
    nondecreasing_from t0 ts ->
    last ts t0 - t0 <= ULong.max ->
    count_true (fst (Timer.poll (map millis ts)
                                (Timer.start_with (millis t0) T x)))
    * (T + 1) <= last ts t0 - t0.
Proof.
  intros x T t0 ts HT Hmode Hts Hspan.
  apply (poll_periodic_rate T HT ts t0); try assumption; try reflexivity.
  repeat split. exact Hmode.
Qed.

Lemma periodic_expiries_are_spaced_witness :
  fst (Timer.poll (map millis [50; 101; 150; 201; 202; 303])
                  (Timer.start_with (millis 0) 100
                                    (Timer.ctor 0 Timer.Periodic)))
  = [false; true; false; false; true; true]
  /\ 3 * (100 + 1) <= 303 - 0.
Proof.
  split; [reflexivity|].
  assert (HT : 100 <> 0) by discriminate.
  assert (Hts : nondecreasing_from 0 [50; 101; 150; 201; 202; 303])
    by (simpl; lia).
  assert (Hspan : last [50; 101; 150; 201; 202; 303] 0 - 0 <= ULong.max)
    by (vm_compute; discriminate).
  exact (periodic_expiries_are_spaced (Timer.ctor 0 Timer.Periodic) 100 0
           [50; 101; 150; 201; 202; 303] HT eq_refl Hts Hspan).
Defined.

(** X12.  A timer whose timeout is [ULONG_MAX] (or more) never expires:
    started or not, in either mode, every [expired()] returns false and
    leaves it as it is, at whatever readings it is polled. *)
Theorem timer_with_max_timeout_never_expires :
  forall (x : Timer.t) (nows : list Z),
    ULong.max <= Timer.m_timeoutMs x ->
    Timer.poll nows x = (repeat false (List.length nows), x)
    /\ (forall now : Z,
           Timer.poll nows (Timer.start now x)
           = (repeat false (List.length nows), Timer.start now x)).
Proof.
  assert (Hone : forall y now, ULong.max <= Timer.m_timeoutMs y ->
                               Timer.expired now y = (false, y)).
  { intros y now Hy. rewrite expired_eq.
    pose proof (sub_le_max now (Timer.m_timerLastMs y)).
    destruct (Z.gtb_spec (ULong.sub now (Timer.m_timerLastMs y))
                         (Timer.m_timeoutMs y)); [lia|].
    rewrite andb_false_r. reflexivity. }
  assert (Hall : forall nows y, ULong.max <= Timer.m_timeoutMs y ->
                   Timer.poll nows y = (repeat false (List.length nows), y)).
  { induction nows as [|now nows IH]; intros y Hy; simpl; [reflexivity|].
    rewrite (Hone y now Hy), (IH y Hy). reflexivity. }
  intros x nows Hx. split; [apply Hall, Hx|].
  intros now. apply Hall. exact Hx.
Qed.

Lemma timer_with_max_timeout_never_expires_witness :
  Timer.poll [0; 77; 4294967295]
             (Timer.mk Timer.Periodic true 4294967295 78)
  = ([false; false; false], Timer.mk Timer.Periodic true 4294967295 78).
Proof.
  apply (timer_with_max_timeout_never_expires
           (Timer.mk Timer.Periodic true 4294967295 78) [0; 77; 4294967295]).
  vm_compute. discriminate.
Defined.

Lemma step_keeps_mode (o : Timer.Op) (x : Timer.t) :
  sets_mode o = false -> Timer.m_mode (snd (Timer.step o x)) = Timer.m_mode x.
Proof.
  intros Ho. destruct o; simpl in *; try reflexivity; try discriminate.
  rewrite expired_eq. destruct (_ && _); simpl; [|reflexivity].
  destruct (Timer.m_mode x) eqn:Hm; simpl; congruence.
Qed.

Lemma step_keeps_timeout (o : Timer.Op) (x : Timer.t) :
  sets_timeout o = false ->
  Timer.m_timeoutMs (snd (Timer.step o x)) = Timer.m_timeoutMs x.
Proof.
  intros Ho. destruct o; simpl in *; try reflexivity; try discriminate.
  rewrite expired_eq. destruct (_ && _); simpl; [|reflexivity].
  destruct (Timer.m_mode x) eqn:Hm; simpl; congruence.
Qed.

Lemma exec_snd_cons (o : Timer.Op) (os : list Timer.Op) (x : Timer.t) :
  snd (Timer.exec (o :: os) x) = snd (Timer.exec os (snd (Timer.step o x))).
Proof.
  simpl. destruct (Timer.step o x) as [r x']. simpl.
  destruct (Timer.exec os x') as [rs x'']. reflexivity.
Qed.

(** X13.  Through any sequence of calls, the mode of a timer changes only
    by [setMode] and its timeout only by [setTimeout] or [start(T)]:
    [expired()], [start()] and [stop()] keep both.  [stop()] changes nothing
    but the running flag, so stopping a stopped timer changes nothing. *)
Theorem timer_configuration_is_stable :
  forall (os : list Timer.Op) (x : Timer.t),
    (none_of sets_mode os = true ->
     Timer.m_mode (snd (Timer.exec os x)) = Timer.m_mode x)
    /\ (none_of sets_timeout os = true ->
        Timer.getTimeout (snd (Timer.exec os x)) = Timer.getTimeout x)
    /\ Timer.stop x = Timer.mk (Timer.m_mode x) false (Timer.m_timeoutMs x)
                               (Timer.m_timerLastMs x)
    /\ Timer.stop (Timer.stop x) = Timer.stop x
    /\ (Timer.running x = false -> Timer.stop x = x).
Proof.
  intros os x. split; [|split; [|split; [|split]]].
  - revert x. induction os as [|o os IH]; intros x Hos; [reflexivity|].
    unfold none_of in Hos. simpl in Hos.
    apply andb_true_iff in Hos as [Ho Hos]. apply negb_true_iff in Ho.
    rewrite exec_snd_cons, (IH _ Hos). apply step_keeps_mode, Ho.
  - unfold Timer.getTimeout.
    revert x. induction os as [|o os IH]; intros x Hos; [reflexivity|].
    unfold none_of in Hos. simpl in Hos.
    apply andb_true_iff in Hos as [Ho Hos]. apply negb_true_iff in Ho.
    rewrite exec_snd_cons, (IH _ Hos). apply step_keeps_timeout, Ho.
  - reflexivity.
  - reflexivity.
  - unfold Timer.running. intros Hx. destruct x as [m r T l].
    simpl in Hx. subst r. reflexivity.
Qed.

Lemma timer_configuration_is_stable_witness :
  Timer.m_mode (snd (Timer.exec [Timer.OpStartWith 0 100; Timer.OpExpired 101;
                                 Timer.OpStop; Timer.OpStart 300]
                                (Timer.ctor 5 Timer.Periodic)))
  = Timer.Periodic
  /\ Timer.getTimeout (snd (Timer.exec [Timer.OpStart 0; Timer.OpExpired 101;
                                        Timer.OpSetMode Timer.OneShot;
                                        Timer.OpStop]
                                       (Timer.ctor 5 Timer.Periodic)))
     = 5.
Proof.
  split.
  - apply (proj1 (timer_configuration_is_stable
                    [Timer.OpStartWith 0 100; Timer.OpExpired 101;
                     Timer.OpStop; Timer.OpStart 300]
                    (Timer.ctor 5 Timer.Periodic))).
    reflexivity.
  - apply (proj1 (proj2 (timer_configuration_is_stable
                           [Timer.OpStart 0; Timer.OpExpired 101;
                            Timer.OpSetMode Timer.OneShot; Timer.OpStop]
                           (Timer.ctor 5 Timer.Periodic)))).
    reflexivity.
Defined.

(** ** More about the formatter *)

(** X14.  The four components [numberOfDays], [numberOfHours],
    [numberOfMinutes] and [numberOfSeconds] of a duration lose nothing:
    weighted by 86400, 3600, 60 and 1 they add up to the seconds they were
    computed from, with seconds and minutes below 60 and hours below 24; for
    an [unsigned long] the days are at most 49710. *)
Theorem elapsed_components_recompose :
  forall seconds : Z,
    0 <= seconds ->
    seconds = ew.numberOfDays seconds * 86400
              + ew.numberOfHours seconds * 3600
              + ew.numberOfMinutes seconds * 60
              + ew.numberOfSeconds seconds
    /\ 0 <= ew.numberOfSeconds seconds < 60
    /\ 0 <= ew.numberOfMinutes seconds < 60
    /\ 0 <= ew.numberOfHours seconds < 24
    /\ 0 <= ew.numberOfDays seconds
    /\ (seconds <= ULong.max -> ew.numberOfDays seconds <= 49710).
Proof.
  intros seconds Hs.
  rewrite numberOfDays_eq, numberOfHours_eq, numberOfMinutes_eq,
    numberOfSeconds_eq.
  unfold ULong.max. rewrite modulus_value.
  split; [|split; [|split; [|split; [|split; [|intros Hmax]]]]];
    Z.div_mod_to_equations; lia.
Qed.

Lemma elapsed_components_recompose_witness :
  0 <= 4294967295
  /\ 4294967295 = ew.numberOfDays 4294967295 * 86400
                  + ew.numberOfHours 4294967295 * 3600
                  + ew.numberOfMinutes 4294967295 * 60
                  + ew.numberOfSeconds 4294967295.
Proof.
  assert (Hs : 0 <= 4294967295) by lia.
  split; [exact Hs|].
  exact (proj1 (elapsed_components_recompose 4294967295 Hs)).
Defined.

(** X15.  Without the [all] flag [fmtElapsed] chooses its template by the
    magnitude of the duration, with the limits at 60, 3600 and 86400
    seconds, and the first number it prints is then the whole duration in
    that unit: below 60 the seconds template with [seconds] itself; from 60
    and below 3600 the minute template with [seconds / 60] and
    [seconds mod 60]; from 3600 and below 86400 the hour template with
    [seconds / 3600], minutes and seconds; from 86400 on the day template.
    With [all] set it is the day template whatever the duration. *)
Theorem fmtElapsed_template_by_magnitude :
  forall (vsnprintf : nat -> string -> list Z -> string)
         (seconds : Z) (fmts fmtm fmth fmtd : string),
    0 <= seconds ->
    let out := ew.fmtElapsed vsnprintf seconds false fmts fmtm fmth fmtd in
    (seconds < 60 -> out = vsnprintf 64%nat fmts [seconds])
    /\ (60 <= seconds < 3600 ->
        out = vsnprintf 64%nat fmtm [seconds / 60; seconds mod 60])
    /\ (3600 <= seconds < 86400 ->
        out = vsnprintf 64%nat fmth
                [seconds / 3600; (seconds / 60) mod 60; seconds mod 60])
    /\ (86400 <= seconds ->
        out = vsnprintf 64%nat fmtd
                [seconds / 86400; (seconds mod 86400) / 3600;
                 (seconds / 60) mod 60; seconds mod 60])
    /\ ew.fmtElapsed vsnprintf seconds true fmts fmtm fmth fmtd
       = vsnprintf 64%nat fmtd
           [seconds / 86400; (seconds mod 86400) / 3600;
            (seconds / 60) mod 60; seconds mod 60].
Proof.
  intros vsnprintf seconds fmts fmtm fmth fmtd Hs out.
  assert (Hout : out =
            if ULong.to_bool (seconds / 86400) || false
            then vsnprintf 64%nat fmtd
                   [seconds / 86400; (seconds mod 86400) / 3600;
                    (seconds / 60) mod 60; seconds mod 60]
            else if ULong.to_bool ((seconds mod 86400) / 3600)
            then vsnprintf 64%nat fmth
                   [(seconds mod 86400) / 3600; (seconds / 60) mod 60;
                    seconds mod 60]
            else if ULong.to_bool ((seconds / 60) mod 60)
            then vsnprintf 64%nat fmtm [(seconds / 60) mod 60; seconds mod 60]
            else vsnprintf 64%nat fmts [seconds mod 60]) by reflexivity.
  split; [|split; [|split; [|split]]].
  - intros Hlt.
    assert (Hd : seconds / 86400 = 0) by (Z.div_mod_to_equations; lia).
    assert (Hh : (seconds mod 86400) / 3600 = 0)
      by (Z.div_mod_to_equations; lia).
    assert (Hm : (seconds / 60) mod 60 = 0) by (Z.div_mod_to_equations; lia).
    assert (Hsec : seconds mod 60 = seconds) by (Z.div_mod_to_equations; lia).
    rewrite Hout, Hd, Hh, Hm, Hsec. reflexivity.
  - intros Hr.
    assert (Hd : seconds / 86400 = 0) by (Z.div_mod_to_equations; lia).
    assert (Hh : (seconds mod 86400) / 3600 = 0)
      by (Z.div_mod_to_equations; lia).
    assert (Hm : (seconds / 60) mod 60 = seconds / 60)
      by (Z.div_mod_to_equations; lia).
    assert (Hm0 : seconds / 60 <> 0) by (Z.div_mod_to_equations; lia).
    apply to_bool_true in Hm0.
    rewrite Hout, Hd, Hh, Hm, Hm0. reflexivity.
  - intros Hr.
    assert (Hd : seconds / 86400 = 0) by (Z.div_mod_to_equations; lia).
    assert (Hh : (seconds mod 86400) / 3600 = seconds / 3600)
      by (Z.div_mod_to_equations; lia).
    assert (Hh0 : seconds / 3600 <> 0) by (Z.div_mod_to_equations; lia).
    apply to_bool_true in Hh0.
    rewrite Hout, Hd, Hh, Hh0. reflexivity.
  - intros Hr.
    assert (Hd0 : seconds / 86400 <> 0) by (Z.div_mod_to_equations; lia).
    apply to_bool_true in Hd0.
    rewrite Hout, Hd0. reflexivity.
  - unfold ew.fmtElapsed. rewrite orb_true_r. reflexivity.
Qed.

Lemma fmtElapsed_template_by_magnitude_witness :
  ew.fmtElapsed Printf.vsnprintf 3599 false ew.default_fmts ew.default_fmtm
                ew.default_fmth ew.default_fmtd
  = Printf.vsnprintf 64%nat ew.default_fmtm [3599 / 60; 3599 mod 60]
  /\ ew.fmtElapsed Printf.vsnprintf 3600 false ew.default_fmts ew.default_fmtm
                   ew.default_fmth ew.default_fmtd
     = Printf.vsnprintf 64%nat ew.default_fmth
         [3600 / 3600; (3600 / 60) mod 60; 3600 mod 60].
Proof.
  split.
  - assert (Hs : 0 <= 3599) by lia.
    apply (proj1 (proj2 (fmtElapsed_template_by_magnitude Printf.vsnprintf
                           3599 ew.default_fmts ew.default_fmtm
                           ew.default_fmth ew.default_fmtd Hs))).
    lia.
  - assert (Hs : 0 <= 3600) by lia.
    apply (proj1 (proj2 (proj2
             (fmtElapsed_template_by_magnitude Printf.vsnprintf
                3600 ew.default_fmts ew.default_fmtm
                ew.default_fmth ew.default_fmtd Hs)))).
    lia.
Defined.

(** X16.  [setTimeout] and [setMode] act on the interval that is already
    running: after [start(T)] at true time [t0], then [setTimeout(ms)] with
    [ms] not 0 and [setMode(mode)], an [expired()] at true time [t] measures
    [t - t0], the time since the start and not since the change, against
    [ms], and on expiry stops or rebases as [mode] says; the timeout and the
    mode the timer was started with play no part. *)
Theorem reconfiguration_applies_to_running_interval :
  forall (x : Timer.t) (T ms t0 t : Z) (mode : Timer.Mode),
    ms <> 0 ->
    0 <= t - t0 <= ULong.max ->
    let x0 := Timer.setMode mode
                (Timer.setTimeout ms (Timer.start_with (millis t0) T x)) in
    Timer.running x0 = true
    /\ Timer.expired (millis t) x0
       = (if t - t0 >? ms
          then (true,
                match mode with
                | Timer.OneShot => Timer.mk Timer.OneShot false ms (millis t0)
                | Timer.Periodic => Timer.mk Timer.Periodic true ms (millis t)
                end)
          else (false, Timer.mk mode true ms (millis t0))).
Proof.
  intros x T ms t0 t mode Hms Hd x0.
  split; [reflexivity|].
  rewrite expired_eq. unfold x0. simpl.
  rewrite (sub_millis_exact t0 t Hd).
  apply to_bool_true in Hms. rewrite Hms. simpl.
  destruct (t - t0 >? ms); [|reflexivity].
  destruct mode; reflexivity.
Qed.

Lemma reconfiguration_applies_to_running_interval_witness :
  Timer.expired (millis 60)
    (Timer.setMode Timer.Periodic
       (Timer.setTimeout 50
          (Timer.start_with (millis 0) 1000 Timer.ctor_default)))
  = (true, Timer.mk Timer.Periodic true 50 60).
Proof.
  assert (Hms : 50 <> 0) by discriminate.
  assert (Hd : 0 <= 60 - 0 <= ULong.max) by (vm_compute; split; discriminate).
  exact (proj2 (reconfiguration_applies_to_running_interval Timer.ctor_default
                  1000 50 0 60 Timer.Periodic Hms Hd)).
Defined.
